(** * ToDoListProgram.py: the [TodoList] task store

    A shallow embedding of [src/ToDoListProgram.py] and the properties of
    its operations.

    - Python [str] values are sequences of Unicode code points ([str]).
    - A task is the four-key dict [add_task] builds ([Task]).
    - The methods of [TodoList] run in a small state-and-exception monad
      over a [World]: the object's fields, the backing file, the terminal
      and the clock.
    - [json.dump(..., indent=4)] and [json.load] of the standard library
      are modelled on the text they write and read. *)

From Stdlib Require Import ZArith NArith List String Ascii Lia Bool.
From Stdlib Require Decimal DecimalFacts DecimalPos DecimalN DecimalZ.
Import Decimal.
From stdpp Require Import base list.

Local Open Scope N_scope.

(** ** Text *)

(** A Python [str]: its code points, in order. *)
Definition str := list N.

(** An ASCII literal of the source as a [str]. *)
Definition lit (s : string) : str :=
  map N_of_ascii (list_ascii_of_string s).

Fixpoint str_eqb (a b : str) : bool :=
  match a, b with
  | [], [] => true
  | x :: a', y :: b' => (x =? y) && str_eqb a' b'
  | _, _ => false
  end.

(** [str.isspace] on one code point (the interpreter's whitespace table). *)
Definition isspace (c : N) : bool :=
  ((9 <=? c) && (c <=? 13)) || ((28 <=? c) && (c <=? 32))
  || (c =? 0x85) || (c =? 0xA0) || (c =? 0x1680)
  || ((0x2000 <=? c) && (c <=? 0x200A))
  || (c =? 0x2028) || (c =? 0x2029) || (c =? 0x202F)
  || (c =? 0x205F) || (c =? 0x3000).

Fixpoint lstrip (s : str) : str :=
  match s with
  | c :: r => if isspace c then lstrip r else s
  | [] => []
  end.

Definition rstrip (s : str) : str := rev (lstrip (rev s)).

(** [s.strip()] *)
Definition strip (s : str) : str := rstrip (lstrip s).

(** ** Integers as decimal text *)

Fixpoint digits (d : Decimal.uint) : str :=
  match d with
  | Nil => []
  | D0 d => 48 :: digits d
  | D1 d => 49 :: digits d
  | D2 d => 50 :: digits d
  | D3 d => 51 :: digits d
  | D4 d => 52 :: digits d
  | D5 d => 53 :: digits d
  | D6 d => 54 :: digits d
  | D7 d => 55 :: digits d
  | D8 d => 56 :: digits d
  | D9 d => 57 :: digits d
  end.

(** [str(z)] for an [int]; also how [json.dump] writes it. *)
Definition str_of_int (z : Z) : str :=
  match Z.to_int z with
  | Decimal.Pos d => digits d
  | Decimal.Neg d => 45 :: digits d
  end.

Definition is_digit (c : N) : bool := (48 <=? c) && (c <=? 57).

(** The decimal digit a code point in '0'..'9' stands for, put in front
    of [d]. *)
Definition push_digit (c : N) (d : Decimal.uint) : Decimal.uint :=
  if c =? 48 then D0 d else if c =? 49 then D1 d
  else if c =? 50 then D2 d else if c =? 51 then D3 d
  else if c =? 52 then D4 d else if c =? 53 then D5 d
  else if c =? 54 then D6 d else if c =? 55 then D7 d
  else if c =? 56 then D8 d else D9 d.

(** Reads a run of ASCII digits; the rest of the text comes back. *)
Fixpoint span_digits (s : str) : Decimal.uint * str :=
  match s with
  | c :: r =>
      if is_digit c
      then let '(d, rest) := span_digits r in (push_digit c d, rest)
      else (Nil, s)
  | [] => (Nil, [])
  end.

(** ** Tasks and the values [json] reads *)

(** The dict [add_task] builds: keys ['id'], ['description'],
    ['completed'], ['created_at']. *)
Record Task := {
  id : Z;
  description : str;
  completed : bool;
  created_at : str
}.

(** What [json.load] can return.  A float is kept as the literal that
    denotes it: nothing below computes with one. *)
#[warnings="-register-all"] Inductive value :=
| VNone
| VBool (b : bool)
| VInt (z : Z)
| VFloat (literal : str)
| VStr (s : str)
| VList (items : list value)
| VDict (pairs : list (str * value)).

(** A task as a Python value, keys in the order [add_task] inserts them. *)
Definition task_value (t : Task) : value :=
  VDict [ (lit "id", VInt (id t));
          (lit "description", VStr (description t));
          (lit "completed", VBool (completed t));
          (lit "created_at", VStr (created_at t)) ].

(** [self.tasks] as a Python value. *)
Definition tasks_value (ts : list Task) : value :=
  VList (map task_value ts).

(** ** [json.dump(self.tasks, file, indent=4)] *)

Definition hex_digit (n : N) : N := if n <? 10 then 48 + n else 87 + n.

(** ['{0:04x}'.format(n)] for [n < 0x10000] *)
Definition hex4 (n : N) : str :=
  [ hex_digit (n / 4096 mod 16); hex_digit (n / 256 mod 16);
    hex_digit (n / 16 mod 16); hex_digit (n mod 16) ].

(** One code point under [ensure_ascii] ([ESCAPE_ASCII], [ESCAPE_DCT] of
    [json.encoder]): printable ASCII stays, the rest is escaped, code
    points past the BMP as a surrogate pair. *)
Definition escape_char (c : N) : str :=
  if c =? 34 then [92; 34]
  else if c =? 92 then [92; 92]
  else if c =? 10 then [92; 110]
  else if c =? 13 then [92; 114]
  else if c =? 9 then [92; 116]
  else if c =? 8 then [92; 98]
  else if c =? 12 then [92; 102]
  else if (32 <=? c) && (c <=? 126) then [c]
  else if c <? 0x10000 then 92 :: 117 :: hex4 c
  else
    let n := c - 0x10000 in
    let s1 := N.lor 0xd800 (N.land (N.shiftr n 10) 0x3ff) in
    let s2 := N.lor 0xdc00 (N.land n 0x3ff) in
    (92 :: 117 :: hex4 s1) ++ (92 :: 117 :: hex4 s2).

Definition escape (s : str) : str := flat_map escape_char s.

(** [encode_basestring_ascii] *)
Definition encode_str (s : str) : str := 34 :: escape s ++ [34].

(** A newline and the indentation of [level] (four spaces each). *)
Definition newline_indent (level : nat) : str :=
  10 :: repeat 32 (4 * level)%nat.

Fixpoint join (sep : str) (chunks : list str) : str :=
  match chunks with
  | [] => []
  | [c] => c
  | c :: r => c ++ sep ++ join sep r
  end.

(** [_iterencode_list] at [level], the items already encoded. *)
Definition encode_list (level : nat) (items : list str) : str :=
  match items with
  | [] => lit "[]"
  | _ =>
      91 :: newline_indent (S level)
      ++ join (44 :: newline_indent (S level)) items
      ++ newline_indent level ++ [93]
  end.

(** [_iterencode_dict] at [level], keys as text, values already encoded. *)
Definition encode_dict (level : nat) (items : list (str * str)) : str :=
  match items with
  | [] => lit "{}"
  | _ =>
      123 :: newline_indent (S level)
      ++ join (44 :: newline_indent (S level))
              (map (fun kv => encode_str (fst kv) ++ lit ": " ++ snd kv) items)
      ++ newline_indent level ++ [125]
  end.

Definition encode_bool (b : bool) : str :=
  if b then lit "true" else lit "false".

Definition dump_task (level : nat) (t : Task) : str :=
  encode_dict level
    [ (lit "id", str_of_int (id t));
      (lit "description", encode_str (description t));
      (lit "completed", encode_bool (completed t));
      (lit "created_at", encode_str (created_at t)) ].

(** The text [json.dump(tasks, file, indent=4)] writes. *)
Definition json_dump (ts : list Task) : str :=
  encode_list 0 (map (dump_task 1) ts).

(** ** [json.load] *)

(** [WHITESPACE] of [json.decoder] *)
Definition is_ws (c : N) : bool :=
  (c =? 32) || (c =? 9) || (c =? 10) || (c =? 13).

Fixpoint skip_ws (s : str) : str :=
  match s with
  | c :: r => if is_ws c then skip_ws r else s
  | [] => []
  end.

Definition hex_value (c : N) : option N :=
  if (48 <=? c) && (c <=? 57) then Some (c - 48)
  else if (97 <=? c) && (c <=? 102) then Some (c - 87)
  else if (65 <=? c) && (c <=? 70) then Some (c - 55)
  else None.

(** The four hex digits after a backslash-u. *)
Definition decode_hex4 (a b c d : N) : option N :=
  match hex_value a, hex_value b, hex_value c, hex_value d with
  | Some x, Some y, Some z, Some w => Some (((x * 16 + y) * 16 + z) * 16 + w)
  | _, _, _, _ => None
  end.

(** [BACKSLASH] of [json.decoder]: the one-letter escapes. *)
Definition backslash (esc : N) : option N :=
  if esc =? 34 then Some 34
  else if esc =? 92 then Some 92
  else if esc =? 47 then Some 47
  else if esc =? 98 then Some 8
  else if esc =? 102 then Some 12
  else if esc =? 110 then Some 10
  else if esc =? 114 then Some 13
  else if esc =? 116 then Some 9
  else None.

Definition is_high_surrogate (u : N) : bool := (0xd800 <=? u) && (u <=? 0xdbff).
Definition is_low_surrogate (u : N) : bool := (0xdc00 <=? u) && (u <=? 0xdfff).

Definition join_surrogates (u u2 : N) : N :=
  0x10000 + N.lor (N.shiftl (u - 0xd800) 10) (u2 - 0xdc00).

Definition prepend (c : N) (r : option (str * str)) : option (str * str) :=
  match r with
  | Some (s, rest) => Some (c :: s, rest)
  | None => None
  end.

(** [scanstring] in strict mode, from just after the opening quote: the
    string and the text after its closing quote; [None] where the decoder
    raises [JSONDecodeError]. *)
Fixpoint scanstring (s : str) : option (str * str) :=
  match s with
  | [] => None
  | c :: r =>
      if c =? 34 then Some ([], r)
      else if c =? 92 then
        match r with
        | [] => None
        | esc :: r1 =>
            if esc =? 117 then
              match r1 with
              | h1 :: h2 :: h3 :: h4 :: r2 =>
                  match decode_hex4 h1 h2 h3 h4 with
                  | None => None
                  | Some uni =>
                      if is_high_surrogate uni then
                        match r2 with
                        | b1 :: u1 :: r3 =>
                            if (b1 =? 92) && (u1 =? 117) then
                              match r3 with
                              | l1 :: l2 :: l3 :: l4 :: r4 =>
                                  match decode_hex4 l1 l2 l3 l4 with
                                  | None => None
                                  | Some uni2 =>
                                      if is_low_surrogate uni2
                                      then prepend (join_surrogates uni uni2)
                                                   (scanstring r4)
                                      else prepend uni (scanstring r2)
                                  end
                              | _ => None
                              end
                            else prepend uni (scanstring r2)
                        | _ => prepend uni (scanstring r2)
                        end
                      else prepend uni (scanstring r2)
                  end
              | _ => None
              end
            else
              match backslash esc with
              | Some ch => prepend ch (scanstring r1)
              | None => None
              end
        end
      else if c <? 32 then None
      else prepend c (scanstring r)
  end.

(** [s] without the prefix [p], when it starts with it. *)
Fixpoint strip_prefix (p s : str) : option str :=
  match p, s with
  | [], _ => Some s
  | x :: p', y :: s' => if x =? y then strip_prefix p' s' else None
  | _ :: _, [] => None
  end.

(** The digits after a decimal point, when at least one follows it. *)
Definition match_frac (s : str) : option str :=
  match s with
  | dot :: c :: r =>
      if (dot =? 46) && is_digit c then Some (snd (span_digits r)) else None
  | _ => None
  end.

(** An exponent: e or E, an optional sign, at least one digit. *)
Definition match_exp (s : str) : option str :=
  match s with
  | e :: r =>
      if (e =? 101) || (e =? 69) then
        let r' := match r with
                  | sign :: r1 =>
                      if (sign =? 45) || (sign =? 43) then r1 else r
                  | [] => r
                  end in
        match r' with
        | c :: r2 => if is_digit c then Some (snd (span_digits r2)) else None
        | [] => None
        end
      else None
  | [] => None
  end.

(** The part of [NUMBER_RE] after the optional minus sign, at [s1], and
    what [scan_once] makes of the groups: an [int] when there is neither
    fraction nor exponent, else a float.  [s] is the text from the start
    of the number. *)
Definition scan_magnitude (neg : bool) (s s1 : str) : option (value * str) :=
  match s1 with
  | c :: r =>
      if is_digit c then
        let '(d, s2) := if c =? 48 then (D0 Nil, r) else span_digits s1 in
        let s3 := match match_frac s2 with Some r3 => r3 | None => s2 end in
        let s4 := match match_exp s3 with Some r4 => r4 | None => s3 end in
        match match_frac s2, match_exp s3 with
        | None, None =>
            Some (VInt (Z.of_int (if neg then Decimal.Neg d else Decimal.Pos d)), s2)
        | _, _ =>
            Some (VFloat (firstn (length s - length s4) s), s4)
        end
      else None
  | [] => None
  end.

(** A number at the head of [s], as [NUMBER_RE] matches it. *)
Definition scan_number (s : str) : option (value * str) :=
  match s with
  | c :: r => if c =? 45 then scan_magnitude true s r else scan_magnitude false s s
  | [] => None
  end.

(** [dict(pairs)]: a repeated key keeps its first place and takes the
    last value. *)
Fixpoint dict_set (k : str) (v : value) (d : list (str * value))
  : list (str * value) :=
  match d with
  | [] => [(k, v)]
  | (k', v') :: r =>
      if str_eqb k k' then (k', v) :: r else (k', v') :: dict_set k v r
  end.

Definition dict_of_pairs (pairs : list (str * value)) : list (str * value) :=
  fold_left (fun d kv => dict_set (fst kv) (snd kv) d) pairs [].

(** The loop of [JSONArray] from the first item on; [n] bounds the number
    of items. *)
Fixpoint array_items (scan : str -> option (value * str)) (n : nat) (s : str)
  : option (list value * str) :=
  match n with
  | O => None
  | S n' =>
      match scan s with
      | None => None
      | Some (v, s1) =>
          match skip_ws s1 with
          | c :: s2 =>
              if c =? 93 then Some ([v], s2)
              else if c =? 44 then
                match array_items scan n' (skip_ws s2) with
                | Some (vs, rest) => Some (v :: vs, rest)
                | None => None
                end
              else None
          | [] => None
          end
      end
  end.

(** [JSONArray], from just after the opening bracket. *)
Definition JSONArray (scan : str -> option (value * str)) (n : nat) (s : str)
  : option (value * str) :=
  match skip_ws s with
  | c :: r =>
      if c =? 93 then Some (VList [], r)
      else match array_items scan n (skip_ws s) with
           | Some (vs, rest) => Some (VList vs, rest)
           | None => None
           end
  | [] => None
  end.

(** The loop of [JSONObject] from just after the opening quote of a key;
    [n] bounds the number of pairs. *)
Fixpoint object_pairs (scan : str -> option (value * str)) (n : nat) (s : str)
  : option (list (str * value) * str) :=
  match n with
  | O => None
  | S n' =>
      match scanstring s with
      | None => None
      | Some (key, s1) =>
          match skip_ws s1 with
          | colon :: s2 =>
              if colon =? 58 then
                match scan (skip_ws s2) with
                | None => None
                | Some (v, s3) =>
                    match skip_ws s3 with
                    | c :: s4 =>
                        if c =? 125 then Some ([(key, v)], s4)
                        else if c =? 44 then
                          match skip_ws s4 with
                          | q :: s5 =>
                              if q =? 34 then
                                match object_pairs scan n' s5 with
                                | Some (ps, rest) => Some ((key, v) :: ps, rest)
                                | None => None
                                end
                              else None
                          | [] => None
                          end
                        else None
                    | [] => None
                    end
                end
              else None
          | [] => None
          end
      end
  end.

(** [JSONObject], from just after the opening brace. *)
Definition JSONObject (scan : str -> option (value * str)) (n : nat) (s : str)
  : option (value * str) :=
  match skip_ws s with
  | c :: r =>
      if c =? 125 then Some (VDict [], r)
      else if c =? 34 then
        match object_pairs scan n r with
        | Some (ps, rest) => Some (VDict (dict_of_pairs ps), rest)
        | None => None
        end
      else None
  | [] => None
  end.

Definition scan_constant (s : str) : option (value * str) :=
  match strip_prefix (lit "NaN") s with
  | Some r => Some (VFloat (lit "NaN"), r)
  | None =>
      match strip_prefix (lit "Infinity") s with
      | Some r => Some (VFloat (lit "Infinity"), r)
      | None =>
          match strip_prefix (lit "-Infinity") s with
          | Some r => Some (VFloat (lit "-Infinity"), r)
          | None => None
          end
      end
  end.

(** [scan_once]: one JSON value at the head of [s] and the text after it.
    [fuel] bounds the nesting and the length of arrays and objects. *)
Fixpoint scan_once (fuel : nat) (s : str) : option (value * str) :=
  match fuel with
  | O => None
  | S f =>
      match s with
      | [] => None
      | c :: r =>
          if c =? 34 then
            match scanstring r with
            | Some (x, rest) => Some (VStr x, rest)
            | None => None
            end
          else if c =? 123 then JSONObject (scan_once f) f r
          else if c =? 91 then JSONArray (scan_once f) f r
          else
            match strip_prefix (lit "null") s with
            | Some rest => Some (VNone, rest)
            | None =>
            match strip_prefix (lit "true") s with
            | Some rest => Some (VBool true, rest)
            | None =>
            match strip_prefix (lit "false") s with
            | Some rest => Some (VBool false, rest)
            | None =>
            match scan_number s with
            | Some res => Some res
            | None => scan_constant s
            end end end end
      end
  end.

(** [json.loads(s)] by JSON's grammar: the value, or [None] for
    [JSONDecodeError].  Every nesting level and every item takes at
    least one character, so the length of the text is fuel enough.  The
    limits of the interpreter (the digits of an integer literal, the
    depth of nesting), past which [json.load] raises [ValueError] or
    [RecursionError] before the grammar is consulted, are not part of
    the grammar: a file that hits one is an [Unreadable] file of the
    world below. *)
Definition json_loads (s : str) : option value :=
  match scan_once (S (length s)) (skip_ws s) with
  | Some (v, rest) =>
      match skip_ws rest with
      | [] => Some v
      | _ :: _ => None
      end
  | None => None
  end.

(** ** The world a [TodoList] runs in *)

(** The exception classes the program meets.  [JSONDecodeError] and
    [UnicodeDecodeError] derive from [ValueError]; all derive from
    [Exception].  Interrupts, which do not, are left out. *)
Inductive exn_class :=
| Exception
| ValueError
| JSONDecodeError
| UnicodeDecodeError
| OSError
| EOFError.

(** A raised exception: its class and [str(e)]. *)
Record exn := { class_of : exn_class; text_of : str }.

Definition subclass (c parent : exn_class) : bool :=
  match parent, c with
  | Exception, _ => true
  | ValueError, (ValueError | JSONDecodeError | UnicodeDecodeError) => true
  | JSONDecodeError, JSONDecodeError => true
  | UnicodeDecodeError, UnicodeDecodeError => true
  | OSError, OSError => true
  | EOFError, EOFError => true
  | _, _ => false
  end.

Definition isinstance (e : exn) (c : exn_class) : bool :=
  subclass (class_of e) c.

(** The backing file: missing; present, but opening, reading, decoding
    or parsing it raises [e] for a reason that is not JSON's grammar (an
    I/O error, bytes that are not UTF-8, a text past the interpreter's
    limit on the digits of an integer or on the depth of nesting); or
    present with its text, which the interpreter reads within its
    limits. *)
Inductive Disk :=
| NoFile
| Unreadable (e : exn)
| FileText (content : str).

(** What the program does to its surroundings, in order: a line printed,
    a prompt shown by [input], an attempt to write [content] to the
    file. *)
Inductive event :=
| Print (line : str)
| Prompt (text : str)
| Save (content : str).

(** The fields of the [TodoList] object and its surroundings.
    [write_fault] is how the next write to the file goes: [None] when it
    succeeds, else the exception raised and the state the file is left
    in.  [clock] is what [datetime.now().strftime("%Y-%m-%d %H:%M:%S")]
    evaluates to; [stdin] holds the lines the user is going to type. *)
Record World := {
  filename : str;
  tasks : list Task;
  disk : Disk;
  write_fault : option (exn * Disk);
  clock : str;
  stdin : list str;
  trace : list event
}.

Definition set_tasks (ts : list Task) (w : World) : World :=
  {| filename := filename w; tasks := ts; disk := disk w;
     write_fault := write_fault w; clock := clock w; stdin := stdin w;
     trace := trace w |}.

Definition set_disk (d : Disk) (w : World) : World :=
  {| filename := filename w; tasks := tasks w; disk := d;
     write_fault := write_fault w; clock := clock w; stdin := stdin w;
     trace := trace w |}.

Definition set_stdin (l : list str) (w : World) : World :=
  {| filename := filename w; tasks := tasks w; disk := disk w;
     write_fault := write_fault w; clock := clock w; stdin := l;
     trace := trace w |}.

Definition emit (e : event) (w : World) : World :=
  {| filename := filename w; tasks := tasks w; disk := disk w;
     write_fault := write_fault w; clock := clock w; stdin := stdin w;
     trace := trace w ++ [e] |}.

(** ** A monad for state and exceptions *)

Inductive result (A : Type) :=
| Return (a : A)
| Raise (e : exn).
Arguments Return {A} a.
Arguments Raise {A} e.

Definition M (A : Type) : Type := World -> result A * World.

Definition ret {A} (a : A) : M A := fun w => (Return a, w).

Definition bind {A B} (m : M A) (k : A -> M B) : M B :=
  fun w =>
    match m w with
    | (Return a, w') => k a w'
    | (Raise e, w') => (Raise e, w')
    end.

Definition raise {A} (e : exn) : M A := fun w => (Raise e, w).

Declare Scope py_scope.
Delimit Scope py_scope with py.
Notation "'let*' x := m 'in' k" := (bind m (fun x => k))
  (at level 10, x name, m at level 100, k at level 200) : py_scope.
Notation "m ;; k" := (bind m (fun _ => k))
  (at level 100, k at level 200, right associativity) : py_scope.

(** [try: body] with its [except] clauses in order: the first clause
    whose class the exception is an instance of handles it. *)
Fixpoint handle {A} (clauses : list (exn_class * (exn -> M A))) (e : exn) : M A :=
  match clauses with
  | [] => raise e
  | (c, h) :: rest => if isinstance e c then h e else handle rest e
  end.

Definition try_except {A} (body : M A) (clauses : list (exn_class * (exn -> M A)))
  : M A :=
  fun w =>
    match body w with
    | (Return a, w') => (Return a, w')
    | (Raise e, w') => handle clauses e w'
    end.

(** [for x in l: body(x)] *)
Fixpoint for_each {A} (l : list A) (body : A -> M unit) : M unit :=
  match l with
  | [] => ret tt
  | x :: r => bind (body x) (fun _ => for_each r body)
  end.

(** *** Primitives *)

Definition get_tasks : M (list Task) := fun w => (Return (tasks w), w).
Definition put_tasks (ts : list Task) : M unit :=
  fun w => (Return tt, set_tasks ts w).
Definition get_filename : M str := fun w => (Return (filename w), w).

(** [print(line)], on a standard output that takes every text.  An
    output whose encoding cannot write a character raises
    [UnicodeEncodeError]; that is left out, here and for the prompt of
    [input]. *)
Definition print (line : str) : M unit := fun w => (Return tt, emit (Print line) w).

(** [input(prompt)]: shows the prompt and reads a line; [EOFError] when
    there is none. *)
Definition input (prompt : str) : M str :=
  fun w =>
    match stdin w with
    | l :: rest => (Return l, set_stdin rest (emit (Prompt prompt) w))
    | [] => (Raise {| class_of := EOFError; text_of := lit "EOF when reading a line" |},
             emit (Prompt prompt) w)
    end.

(** [datetime.now().strftime("%Y-%m-%d %H:%M:%S")] *)
Definition now_text : M str := fun w => (Return (clock w), w).

(** [os.path.exists(self.filename)] *)
Definition path_exists : M bool :=
  fun w => (Return (match disk w with NoFile => false | _ => true end), w).

(** [open(self.filename, 'r', encoding='utf-8')] and reading it all. *)
Definition read_file : M str :=
  fun w =>
    match disk w with
    | FileText s => (Return s, w)
    | Unreadable e => (Raise e, w)
    | NoFile => (Raise {| class_of := OSError; text_of := lit "No such file or directory" |}, w)
    end.

(** [json.load(file)] *)
Definition json_load : M value :=
  bind read_file (fun s =>
    match json_loads s with
    | Some v => ret v
    | None => raise {| class_of := JSONDecodeError; text_of := lit "Expecting value" |}
    end).

(** [open(self.filename, 'w', encoding='utf-8')] and writing [content]. *)
Definition write_file (content : str) : M unit :=
  fun w =>
    match write_fault w with
    | None => (Return tt, set_disk (FileText content) (emit (Save content) w))
    | Some (e, d) => (Raise e, set_disk d (emit (Save content) w))
    end.

(** ** The builtins [int] and [str.lower] *)

(** The characters [int] treats by the ASCII rules alone: ASCII
    whitespace and printable ASCII. *)
Definition int_plain (c : N) : bool :=
  ((9 <=? c) && (c <=? 13)) || ((32 <=? c) && (c <=? 126)).

Definition int_space (c : N) : bool :=
  ((9 <=? c) && (c <=? 13)) || (c =? 32).

Fixpoint int_lstrip (s : str) : str :=
  match s with
  | c :: r => if int_space c then int_lstrip r else s
  | [] => []
  end.

(** Decimal digits, single underscores allowed between two of them. *)
Fixpoint int_digits (s : str) : option Decimal.uint :=
  match s with
  | [] => None
  | c :: r =>
      if is_digit c then
        match r with
        | [] => Some (push_digit c Nil)
        | c2 :: r2 =>
            match (if c2 =? 95 then int_digits r2 else int_digits r) with
            | Some d => Some (push_digit c d)
            | None => None
            end
        end
      else None
  end.

(** [int(s)] on a text of plain characters: surrounding whitespace, an
    optional sign, digits.  [None] is [ValueError].  Integers are
    unbounded; the interpreter's cap on the number of digits it converts
    is left out. *)
Definition int_ascii (s : str) : option Z :=
  let body := rev (int_lstrip (rev (int_lstrip s))) in
  match body with
  | c :: r =>
      if c =? 43 then
        match int_digits r with
        | Some d => Some (Z.of_int (Decimal.Pos d))
        | None => None
        end
      else if c =? 45 then
        match int_digits r with
        | Some d => Some (Z.of_int (Decimal.Neg d))
        | None => None
        end
      else
        match int_digits body with
        | Some d => Some (Z.of_int (Decimal.Pos d))
        | None => None
        end
  | [] => None
  end.

Definition is_ascii (c : N) : bool := c <? 128.

Definition ascii_lower (c : N) : N :=
  if (65 <=? c) && (c <=? 90) then c + 32 else c.

(** What the interpreter's Unicode database decides: [int] on a text
    with a character that is not plain ([None] for [ValueError]), and
    [lower] on a text that is not all ASCII. *)
Class UnicodeData := {
  int_unicode : str -> option Z;
  lower_unicode : str -> str
}.

Section Store.

Context {unicode : UnicodeData}.

(** [int(s)] for a [str] *)
Definition py_int (s : str) : option Z :=
  if forallb int_plain s then int_ascii s else int_unicode s.

(** [s.lower()] *)
Definition lower (s : str) : str :=
  if forallb is_ascii s then map ascii_lower s else lower_unicode s.

Local Open Scope py_scope.

(** ** [TodoList] *)

(** *** [load_tasks] *)

Definition msg_corrupted (file : str) : str :=
  lit "Warning: " ++ file ++ lit " is corrupted. Starting with empty list.".

Definition msg_load_error (e : exn) : str :=
  lit "Error loading tasks: " ++ text_of e.

Definition load_tasks : M value :=
  try_except
    (let* found := path_exists in
     if found then json_load else ret (VList []))
    [ (JSONDecodeError, fun _ =>
         let* file := get_filename in
         print (msg_corrupted file) ;;
         ret (VList []));
      (Exception, fun e =>
         print (msg_load_error e) ;;
         ret (VList [])) ].

(** *** [save_tasks] *)

Definition msg_save_error (e : exn) : str :=
  lit "Error saving tasks: " ++ text_of e.

Definition save_tasks : M bool :=
  try_except
    (let* ts := get_tasks in
     write_file (json_dump ts) ;;
     ret true)
    [ (Exception, fun e =>
         print (msg_save_error e) ;;
         ret false) ].

(** *** [add_task] *)

Definition msg_empty_description : str :=
  lit "Error: Task description cannot be empty.".

Definition msg_added (task_id : Z) : str :=
  [10; 10003] ++ lit " Task added successfully! (ID: "
  ++ str_of_int task_id ++ lit ")".

(** [not l] for a sequence *)
Definition is_empty {A} (l : list A) : bool :=
  match l with [] => true | _ => false end.

Definition add_task (description : str) : M bool :=
  if is_empty description || str_eqb (strip description) [] then
    print msg_empty_description ;;
    ret false
  else
    let* ts := get_tasks in
    let* now := now_text in
    let task := {| id := Z.of_nat (length ts) + 1;
                   description := strip description;
                   completed := false;
                   created_at := now |} in
    put_tasks (ts ++ [task]) ;;
    let* saved := save_tasks in
    if saved then
      print (msg_added (id task)) ;;
      ret true
    else ret false.

(** *** [view_tasks] *)

Definition msg_no_tasks : str :=
  10 :: lit "No tasks found. Your to-do list is empty!".

Definition msg_no_pending : str :=
  10 :: lit "No pending tasks found. Great job!".

Definition rule (n : nat) : str := repeat 61 n.

Definition task_lines (task : Task) : list str :=
  let status := if completed task then [10003] else [9675] in
  let status_text := if completed task then lit "DONE" else lit "PENDING" in
  [ 10 :: lit "[" ++ status ++ lit "] ID: " ++ str_of_int (id task)
       ++ lit " | Status: " ++ status_text;
    lit "    Task: " ++ description task;
    lit "    Created: " ++ created_at task ].

Definition msg_summary (total completed pending : Z) : str :=
  lit "Total: " ++ str_of_int total ++ lit " | Completed: "
  ++ str_of_int completed ++ lit " | Pending: " ++ str_of_int pending.

(** [sum(...)] over integers *)
Definition sum (l : list Z) : Z := fold_right Z.add 0%Z l.

(** [self.tasks if show_all else [t for t in self.tasks if not t['completed']]] *)
Definition tasks_to_show (show_all : bool) (ts : list Task) : list Task :=
  if show_all then ts
  else List.filter (fun t => negb (completed t)) ts.

Definition view_tasks (show_all : bool) : M unit :=
  let* ts := get_tasks in
  if is_empty ts then print msg_no_tasks
  else
    let shown := tasks_to_show show_all ts in
    if is_empty shown then print msg_no_pending
    else
      print (10 :: rule 80) ;;
      print (lit "YOUR TO-DO LIST") ;;
      print (rule 80) ;;
      for_each shown (fun task => for_each (task_lines task) print) ;;
      print (10 :: rule 80) ;;
      let total := Z.of_nat (length ts) in
      let completed := sum (map (fun _ => 1%Z) (List.filter completed ts)) in
      let pending := (total - completed)%Z in
      print (msg_summary total completed pending) ;;
      print (rule 80).

(** *** Looking a task up by id *)

Definition msg_id_not_number : str := lit "Error: Task ID must be a number.".

Definition msg_not_found (task_id : Z) : str :=
  lit "Error: Task with ID " ++ str_of_int task_id ++ lit " does not exist.".

(** [int(task_id)], raising [ValueError] *)
Definition int_ (s : str) : M Z :=
  match py_int s with
  | Some z => ret z
  | None => raise {| class_of := ValueError;
                     text_of := lit "invalid literal for int() with base 10" |}
  end.

(** The [try: task_id = int(task_id)] block: [None] after the
    [ValueError] clause has printed its message. *)
Definition parse_id (task_id : str) : M (option Z) :=
  try_except
    (let* n := int_ task_id in ret (Some n))
    [ (ValueError, fun _ => print msg_id_not_number ;; ret None) ].

(** The loop [for i, task in enumerate(self.tasks)] with its [break]:
    the first task whose id is [task_id], and where it is. *)
Fixpoint find_task (task_id : Z) (ts : list Task) : option (nat * Task) :=
  match ts with
  | [] => None
  | t :: r =>
      if (id t =? task_id)%Z then Some (O, t)
      else match find_task task_id r with
           | Some (i, t') => Some (S i, t')
           | None => None
           end
  end.

(** *** [delete_task] *)

Definition prompt_delete (task_desc : str) : str :=
  10 :: lit "Are you sure you want to delete '" ++ task_desc
  ++ lit "'? (yes/no): ".

Definition msg_deleted (task_id : Z) : str :=
  [10; 10003] ++ lit " Task " ++ str_of_int task_id
  ++ lit " deleted successfully!".

Definition msg_deletion_cancelled : str := 10 :: lit "Deletion cancelled.".

Definition delete_task (task_id : str) : M bool :=
  let* parsed := parse_id task_id in
  match parsed with
  | None => ret false
  | Some task_id =>
      let* ts := get_tasks in
      match find_task task_id ts with
      | None =>
          print (msg_not_found task_id) ;;
          ret false
      | Some (task_index, task) =>
          let task_desc := description task in
          let* answer := input (prompt_delete task_desc) in
          let confirm := lower answer in
          if str_eqb confirm (lit "yes") then
            put_tasks (delete task_index ts) ;;
            let* saved := save_tasks in
            if saved then
              print (msg_deleted task_id) ;;
              ret true
            else ret false
          else
            print msg_deletion_cancelled ;;
            ret false
      end
  end.

(** *** [mark_complete] and [mark_incomplete] *)

(** [task['completed'] = b] *)
Definition set_completed (b : bool) (task : Task) : Task :=
  {| id := id task; description := description task;
     completed := b; created_at := created_at task |}.

Definition msg_already_completed (task_id : Z) : str :=
  10 :: lit "Task " ++ str_of_int task_id
  ++ lit " is already marked as completed.".

Definition msg_marked_completed (task_id : Z) : str :=
  [10; 10003] ++ lit " Task " ++ str_of_int task_id
  ++ lit " marked as completed!".

Definition msg_already_incomplete (task_id : Z) : str :=
  10 :: lit "Task " ++ str_of_int task_id
  ++ lit " is already marked as incomplete.".

Definition msg_marked_incomplete (task_id : Z) : str :=
  [10; 10003] ++ lit " Task " ++ str_of_int task_id
  ++ lit " marked as incomplete!".

(** The task found is the dict held by the list, so assigning to its
    key updates the list in place, at the index it was found at. *)
Definition mark_complete (task_id : str) : M bool :=
  let* parsed := parse_id task_id in
  match parsed with
  | None => ret false
  | Some task_id =>
      let* ts := get_tasks in
      match find_task task_id ts with
      | None =>
          print (msg_not_found task_id) ;;
          ret false
      | Some (i, task) =>
          if completed task then
            print (msg_already_completed task_id) ;;
            ret false
          else
            put_tasks (<[i := set_completed true task]> ts) ;;
            let* saved := save_tasks in
            if saved then
              print (msg_marked_completed task_id) ;;
              ret true
            else ret false
      end
  end.

Definition mark_incomplete (task_id : str) : M bool :=
  let* parsed := parse_id task_id in
  match parsed with
  | None => ret false
  | Some task_id =>
      let* ts := get_tasks in
      match find_task task_id ts with
      | None =>
          print (msg_not_found task_id) ;;
          ret false
      | Some (i, task) =>
          if negb (completed task) then
            print (msg_already_incomplete task_id) ;;
            ret false
          else
            put_tasks (<[i := set_completed false task]> ts) ;;
            let* saved := save_tasks in
            if saved then
              print (msg_marked_incomplete task_id) ;;
              ret true
            else ret false
      end
  end.

(** *** [clear_completed] *)

Definition msg_nothing_to_clear : str := 10 :: lit "No completed tasks to clear.".

Definition prompt_clear (n : Z) : str :=
  10 :: lit "Delete " ++ str_of_int n ++ lit " completed task(s)? (yes/no): ".

Definition msg_cleared (n : Z) : str :=
  [10; 10003] ++ lit " Cleared " ++ str_of_int n ++ lit " completed task(s)!".

Definition msg_operation_cancelled : str := 10 :: lit "Operation cancelled.".

Definition clear_completed : M bool :=
  let* ts := get_tasks in
  let completed_tasks := List.filter completed ts in
  if is_empty completed_tasks then
    print msg_nothing_to_clear ;;
    ret false
  else
    let n := Z.of_nat (length completed_tasks) in
    let* answer := input (prompt_clear n) in
    let confirm := lower answer in
    if str_eqb confirm (lit "yes") then
      let* ts := get_tasks in
      put_tasks (List.filter (fun t => negb (completed t)) ts) ;;
      let* saved := save_tasks in
      if saved then
        print (msg_cleared n) ;;
        ret true
      else ret false
    else
      print msg_operation_cancelled ;;
      ret false.

(** *** [display_menu] and [main] *)

Definition display_menu : M unit :=
  print (10 :: rule 50) ;;
  print (lit "TO-DO LIST APPLICATION") ;;
  print (rule 50) ;;
  print (lit "1. Add a new task") ;;
  print (lit "2. View all tasks") ;;
  print (lit "3. View pending tasks only") ;;
  print (lit "4. Mark task as complete") ;;
  print (lit "5. Mark task as incomplete") ;;
  print (lit "6. Delete a task") ;;
  print (lit "7. Clear all completed tasks") ;;
  print (lit "8. Exit") ;;
  print (rule 50).

Definition prompt_choice : str := 10 :: lit "Enter your choice (1-8): ".

Definition prompt_description : str := 10 :: lit "Enter task description: ".

Definition prompt_complete : str :=
  10 :: lit "Enter task ID to mark as complete: ".

Definition prompt_incomplete : str :=
  10 :: lit "Enter task ID to mark as incomplete: ".

Definition prompt_delete_id : str := 10 :: lit "Enter task ID to delete: ".

Definition msg_invalid_choice : str :=
  10 :: lit "Invalid choice! Please enter a number between 1 and 8.".

Definition goodbye : list str :=
  [ 10 :: rule 50;
    lit "Thank you for using To-Do List Application!";
    lit "Your tasks have been saved. Goodbye!";
    rule 50 ++ [10] ].

(** The [if]/[elif] chain of [main]'s loop on the stripped choice:
    [true] when it ends in [break]. *)
Definition dispatch (choice : str) : M bool :=
  if str_eqb choice (lit "1") then
    let* description := input prompt_description in
    add_task description ;;
    ret false
  else if str_eqb choice (lit "2") then
    view_tasks true ;;
    ret false
  else if str_eqb choice (lit "3") then
    view_tasks false ;;
    ret false
  else if str_eqb choice (lit "4") then
    let* task_id := input prompt_complete in
    mark_complete task_id ;;
    ret false
  else if str_eqb choice (lit "5") then
    let* task_id := input prompt_incomplete in
    mark_incomplete task_id ;;
    ret false
  else if str_eqb choice (lit "6") then
    let* task_id := input prompt_delete_id in
    delete_task task_id ;;
    ret false
  else if str_eqb choice (lit "7") then
    clear_completed ;;
    ret false
  else if str_eqb choice (lit "8") then
    for_each goodbye print ;;
    ret true
  else
    print msg_invalid_choice ;;
    ret false.

(** One pass through the body of [while True]. *)
Definition main_step : M bool :=
  display_menu ;;
  let* line := input prompt_choice in
  dispatch (strip line).

(** The loop [while True] of [main].  Every pass reads a line, so the
    number of lines left on [stdin], plus one, is fuel enough; [None]
    is running out of fuel. *)
Fixpoint main_loop (fuel : nat) (w : World) : option (result unit * World) :=
  match fuel with
  | O => None
  | S fuel' =>
      match main_step w with
      | (Return true, w') => Some (Return tt, w')
      | (Return false, w') => main_loop fuel' w'
      | (Raise e, w') => Some (Raise e, w')
      end
  end.

Definition welcome : list str :=
  [ 10 :: rule 50; lit "Welcome to Your To-Do List Application!"; rule 50 ].

(** [main], from the store that [todo = TodoList()] has built: the
    welcome lines and the loop.  [w] is the world once the constructor
    has run, with [self.tasks] a list of task records; a file holding
    other JSON (an object, a list of numbers) gives a store that [World]
    does not describe. *)
Definition main (w : World) : option (result unit * World) :=
  match for_each welcome print w with
  | (Return _, w') => main_loop (S (length (stdin w'))) w'
  | (Raise e, w') => Some (Raise e, w')
  end.

End Store.

(** ** Notions the properties are stated with *)

(** A text [json] restores: code points of Python's range, and no high
    surrogate immediately followed by a low one. *)
Fixpoint text_ok (s : str) : bool :=
  match s with
  | [] => true
  | c :: r =>
      (c <? 0x110000)
      && negb (is_high_surrogate c
               && match r with
                  | c2 :: _ => is_low_surrogate c2
                  | [] => false
                  end)
      && text_ok r
  end.

Definition task_ok (t : Task) : bool :=
  text_ok (description t) && text_ok (created_at t).

(** What [scanstring] finds after a high surrogate escape. *)
Inductive lookahead_result :=
| Plain
| LowEscape (uni2 : N) (rest : str)
| BadEscape.

Definition lookahead (s : str) : lookahead_result :=
  match s with
  | b1 :: u1 :: r3 =>
      if (b1 =? 92) && (u1 =? 117) then
        match r3 with
        | l1 :: l2 :: l3 :: l4 :: r4 =>
            match decode_hex4 l1 l2 l3 l4 with
            | None => BadEscape
            | Some uni2 =>
                if is_low_surrogate uni2 then LowEscape uni2 r4 else Plain
            end
        | _ => BadEscape
        end
      else Plain
  | _ => Plain
  end.

(** What may follow a number for it to end there. *)
Definition ends_number (rest : str) : Prop :=
  match rest with
  | c :: _ => is_digit c = false /\ c <> 46 /\ c <> 101 /\ c <> 69
  | [] => True
  end.

(** The four forms [escape_char c] takes. *)
Inductive escape_shape (c : N) : str -> Prop :=
| shape_short (e : N) :
    e <> 117 -> backslash e = Some c -> escape_shape c [92; e]
| shape_plain :
    c <> 34 -> c <> 92 -> 32 <= c -> escape_shape c [c]
| shape_u :
    c < 65536 -> escape_shape c (92 :: 117 :: hex4 c)
| shape_pair (s1 s2 : N) :
    s1 < 65536 -> s2 < 65536 ->
    is_high_surrogate s1 = true -> is_low_surrogate s2 = true ->
    is_low_surrogate s1 = false -> join_surrogates s1 s2 = c ->
    escape_shape c ((92 :: 117 :: hex4 s1) ++ (92 :: 117 :: hex4 s2)).

(** Several events, in order. *)
Definition emit_all (es : list event) (w : World) : World :=
  fold_left (fun w' e => emit e w') es w.

(** Whether the next write to the backing file goes through. *)
Definition write_ok (w : World) : bool :=
  match write_fault w with
  | None => true
  | Some _ => false
  end.

(** [mark_complete] and [mark_incomplete] as one operation on the flag. *)
Definition setCompleted `{UnicodeData} (value : bool) : str -> M bool :=
  if value then mark_complete else mark_incomplete.

Definition msg_already (value : bool) (task_id : Z) : str :=
  if value then msg_already_completed task_id else msg_already_incomplete task_id.

Definition msg_marked (value : bool) (task_id : Z) : str :=
  if value then msg_marked_completed task_id else msg_marked_incomplete task_id.

(** The twelve lines of the menu, as [display_menu] prints them. *)
Definition menu_lines : list str :=
  [ 10 :: rule 50;
    lit "TO-DO LIST APPLICATION";
    rule 50;
    lit "1. Add a new task";
    lit "2. View all tasks";
    lit "3. View pending tasks only";
    lit "4. Mark task as complete";
    lit "5. Mark task as incomplete";
    lit "6. Delete a task";
    lit "7. Clear all completed tasks";
    lit "8. Exit";
    rule 50 ].

(** No prompt among the events. *)
Definition no_prompt (es : list event) : Prop :=
  Forall (fun e => match e with Prompt _ => False | _ => True end) es.

(** A text with no whitespace at either end. *)
Definition trimmed (s : str) : bool :=
  match s with
  | c :: _ => negb (isspace c)
  | [] => true
  end
  && match rev s with
     | c :: _ => negb (isspace c)
     | [] => true
     end.

(** A task as [add_task] makes them: a positive id and a description
    that is not empty and has no whitespace at either end. *)
Definition well_formed (t : Task) : Prop :=
  (1 <= id t)%Z /\ description t <> [] /\ trimmed (description t) = true.

(** The backing file holds the list in memory, or there is no file yet
    and no task. *)
Definition synced (w : World) : Prop :=
  disk w = FileText (json_dump (tasks w))
  \/ (disk w = NoFile /\ tasks w = []).

(** What every command of the menu keeps to: it leaves the way writes
    go alone, reads lines only from the front of [stdin], raises
    nothing but [EOFError] (and that with no line left), keeps the tasks
    well formed, and on a working disk keeps the file in step with the
    list. *)
Definition contract {A} (m : M A) : Prop :=
  forall w,
    write_fault (snd (m w)) = write_fault w
    /\ (length (stdin (snd (m w))) <= length (stdin w))%nat
    /\ (forall e, fst (m w) = Raise e ->
        class_of e = EOFError /\ stdin (snd (m w)) = [])
    /\ (Forall well_formed (tasks w) -> Forall well_formed (tasks (snd (m w))))
    /\ (write_fault w = None -> synced w -> synced (snd (m w))).

(** *** Sample data *)

(** A Unicode database with no digit and no cased letter past ASCII.
    The samples are ASCII and never consult it. *)
Definition ascii_only : UnicodeData :=
  {| int_unicode := fun _ => None; lower_unicode := fun s => s |}.

Definition sample_task (i : Z) (text : string) (done : bool) : Task :=
  {| id := i; description := lit text; completed := done;
     created_at := lit "2024-05-01 09:30:00" |}.

(** A store holding [ts], no backing file yet, a user about to type
    [answers], and writes that go through. *)
Definition sample_world (ts : list Task) (answers : list str) : World :=
  {| filename := lit "tasks.json"; tasks := ts; disk := NoFile;
     write_fault := None; clock := lit "2024-05-01 09:30:00";
     stdin := answers; trace := [] |}.

Definition disk_full : exn :=
  {| class_of := OSError; text_of := lit "[Errno 28] No space left on device" |}.

(** The same, on a full disk: opening the file for writing empties it
    and the write raises. *)
Definition full_disk_world (ts : list Task) (answers : list str) : World :=
  {| filename := lit "tasks.json"; tasks := ts; disk := NoFile;
     write_fault := Some (disk_full, FileText []);
     clock := lit "2024-05-01 09:30:00";
     stdin := answers; trace := [] |}.

(** A store not yet built, on a backing file in state [d]. *)
Definition file_world (d : Disk) : World :=
  {| filename := lit "tasks.json"; tasks := []; disk := d;
     write_fault := None; clock := lit "2024-05-01 09:30:00";
     stdin := []; trace := [] |}.

(** What [int] raises in [json.load] on an integer literal longer than
    the interpreter converts. *)
Definition too_many_digits : exn :=
  {| class_of := ValueError;
     text_of := lit "Exceeds the limit (4300 digits) for integer string conversion" |}.

(** Three tasks as three calls of [add_task] leave them, the first
    one completed since. *)
Definition three_tasks : list Task :=
  [ sample_task 1 "Buy milk" true;
    sample_task 2 "Walk dog" false;
    sample_task 3 "Pay rent" false ].

(** A task whose description is a high surrogate followed by a low
    one, as [add_task(chr(0xd800) + chr(0xdc00))] creates it. *)
Definition surrogate_task : Task :=
  {| id := 1; description := [0xd800; 0xdc00]; completed := false;
     created_at := lit "2024-05-01 09:30:00" |}.

(** A task with an accent, a quote, a newline, an emoji and a lone
    surrogate in its description. *)
Definition unicode_task : Task :=
  {| id := 2; description := [233; 34; 10; 0x1F600; 0xdc80; 65];
     completed := true; created_at := lit "2024-05-01 09:30:00" |}.

(** * Properties *)

(** ** Text and numbers *)

Ltac cmp_cases :=
  repeat match goal with
  | |- context [N.eqb ?a ?b] => destruct (N.eqb_spec a b)
  | |- context [N.leb ?a ?b] => destruct (N.leb_spec a b)
  | |- context [N.ltb ?a ?b] => destruct (N.ltb_spec a b)
  | H : context [N.eqb ?a ?b] |- _ => destruct (N.eqb_spec a b)
  | H : context [N.leb ?a ?b] |- _ => destruct (N.leb_spec a b)
  | H : context [N.ltb ?a ?b] |- _ => destruct (N.ltb_spec a b)
  end; simpl in *.

Lemma str_eqb_eq (a b : str) : str_eqb a b = true <-> a = b.
Proof.
  revert b. induction a as [|x a IH]; intros [|y b]; simpl; try easy.
  rewrite andb_true_iff, N.eqb_eq, IH. split.
  - intros [-> ->]. reflexivity.
  - intros [= -> ->]. auto.
Qed.

Lemma lstrip_blank (s : str) : forallb isspace s = true -> lstrip s = [].
Proof.
  induction s as [|c s IH]; simpl; [easy|].
  rewrite andb_true_iff. intros [-> Hs]. auto.
Qed.

Lemma strip_blank (s : str) : forallb isspace s = true -> strip s = [].
Proof.
  intros H. unfold strip, rstrip. rewrite (lstrip_blank s H). reflexivity.
Qed.

Lemma hex_value_hex_digit (k : N) : k < 16 -> hex_value (hex_digit k) = Some k.
Proof.
  intros Hk. unfold hex_value, hex_digit.
  cmp_cases; try lia; f_equal; lia.
Qed.

Lemma decode_hex4_hex4 (n : N) :
  n < 65536 ->
  decode_hex4 (hex_digit (n / 4096 mod 16)) (hex_digit (n / 256 mod 16))
              (hex_digit (n / 16 mod 16)) (hex_digit (n mod 16)) = Some n.
Proof.
  intros Hn. unfold decode_hex4.
  rewrite !hex_value_hex_digit by (apply N.mod_lt; lia).
  f_equal. zify. Z.to_euclidean_division_equations. lia.
Qed.

Lemma lor_shifted (a b n : N) : b < 2 ^ n -> N.lor (a * 2 ^ n) b = a * 2 ^ n + b.
Proof.
  intros Hb.
  assert (Hland : N.land (a * 2 ^ n) b = 0).
  { apply N.bits_inj. intros m. rewrite N.land_spec, N.bits_0.
    destruct (N.lt_ge_cases m n) as [Hm|Hm].
    - rewrite N.mul_pow2_bits_low by assumption. reflexivity.
    - rewrite <- (N.mod_small b (2 ^ n)) by assumption.
      rewrite N.mod_pow2_bits_high by assumption. apply andb_false_r. }
  rewrite <- N.lxor_lor by assumption. symmetry.
  apply N.add_nocarry_lxor. assumption.
Qed.

(** The surrogate pair [escape_char] writes for a code point past the
    BMP, and what [scanstring] joins it back to. *)
Lemma surrogate_pair (c : N) :
  0x10000 <= c -> c < 0x110000 ->
  let n := c - 0x10000 in
  let s1 := N.lor 0xd800 (N.land (N.shiftr n 10) 0x3ff) in
  let s2 := N.lor 0xdc00 (N.land n 0x3ff) in
  s1 < 65536 /\ s2 < 65536 /\
  is_high_surrogate s1 = true /\ is_low_surrogate s2 = true /\
  is_low_surrogate s1 = false /\
  join_surrogates s1 s2 = c.
Proof.
  intros Hlo Hhi n s1 s2.
  assert (Hn : n < 1048576) by (unfold n; lia).
  assert (H1 : s1 = 0xd800 + n / 1024).
  { unfold s1. change 0x3ff with (N.ones 10). rewrite N.land_ones.
    rewrite N.shiftr_div_pow2. change (2 ^ 10) with 1024.
    rewrite N.mod_small by (apply N.Div0.div_lt_upper_bound; lia).
    change 0xd800 with (54 * 2 ^ 10). rewrite lor_shifted; [reflexivity|].
    change (2 ^ 10) with 1024. apply N.Div0.div_lt_upper_bound; lia. }
  assert (H2 : s2 = 0xdc00 + n mod 1024).
  { unfold s2. change 0x3ff with (N.ones 10). rewrite N.land_ones.
    change 0xdc00 with (55 * 2 ^ 10). rewrite lor_shifted; [reflexivity|].
    apply N.mod_lt. discriminate. }
  assert (Hq : n / 1024 < 1024) by (apply N.Div0.div_lt_upper_bound; lia).
  assert (Hr : n mod 1024 < 1024) by (apply N.mod_lt; discriminate).
  assert (Hc : c = 0x10000 + (1024 * (n / 1024) + n mod 1024)).
  { rewrite <- N.div_mod by discriminate. unfold n. lia. }
  clearbody s1 s2 n.
  remember (n / 1024) as q. remember (n mod 1024) as r.
  assert (Hjoin : join_surrogates s1 s2 = c).
  { unfold join_surrogates. rewrite H1, H2.
    replace (0xd800 + q - 0xd800) with q by lia.
    replace (0xdc00 + r - 0xdc00) with r by lia.
    rewrite N.shiftl_mul_pow2, lor_shifted by assumption.
    change (2 ^ 10) with 1024. lia. }
  unfold is_high_surrogate, is_low_surrogate.
  repeat split; try assumption; try lia.
  - rewrite H1. cmp_cases; try reflexivity; lia.
  - rewrite H2. cmp_cases; try reflexivity; lia.
  - rewrite H1. cmp_cases; try reflexivity; lia.
Qed.

(** ** [scanstring] reads back what [encode_str] writes *)

Lemma escape_char_shape (c : N) : c < 0x110000 -> escape_shape c (escape_char c).
Proof.
  intros Hc. unfold escape_char.
  destruct (N.eqb_spec c 34) as [->|]; [now apply shape_short|].
  destruct (N.eqb_spec c 92) as [->|]; [now apply shape_short|].
  destruct (N.eqb_spec c 10) as [->|]; [now apply shape_short|].
  destruct (N.eqb_spec c 13) as [->|]; [now apply shape_short|].
  destruct (N.eqb_spec c 9) as [->|]; [now apply shape_short|].
  destruct (N.eqb_spec c 8) as [->|]; [now apply shape_short|].
  destruct (N.eqb_spec c 12) as [->|]; [now apply shape_short|].
  destruct (N.leb_spec 32 c); simpl.
  - destruct (N.leb_spec c 126); simpl.
    + now apply shape_plain.
    + destruct (N.ltb_spec c 0x10000); [now apply shape_u|].
      destruct (surrogate_pair c) as (? & ? & ? & ? & ? & ?); try assumption.
      now apply shape_pair.
  - destruct (N.ltb_spec c 0x10000); [now apply shape_u|]. lia.
Qed.

Lemma scanstring_short (e c : N) (X : str) :
  e <> 117 -> backslash e = Some c ->
  scanstring (92 :: e :: X) = prepend c (scanstring X).
Proof.
  intros He Hb. cbn [scanstring].
  change (92 =? 34) with false. change (92 =? 92) with true. cbv iota.
  destruct (N.eqb_spec e 117); [contradiction|].
  rewrite Hb. reflexivity.
Qed.

Lemma scanstring_plain (c : N) (X : str) :
  c <> 34 -> c <> 92 -> 32 <= c ->
  scanstring (c :: X) = prepend c (scanstring X).
Proof.
  intros H1 H2 H3. cbn [scanstring].
  destruct (N.eqb_spec c 34); [contradiction|].
  destruct (N.eqb_spec c 92); [contradiction|].
  destruct (N.ltb_spec c 32); [lia|]. reflexivity.
Qed.

Lemma scanstring_u (c : N) (X : str) :
  c < 65536 ->
  scanstring (92 :: 117 :: hex4 c ++ X) =
  if is_high_surrogate c then
    match lookahead X with
    | Plain => prepend c (scanstring X)
    | LowEscape uni2 rest => prepend (join_surrogates c uni2) (scanstring rest)
    | BadEscape => None
    end
  else prepend c (scanstring X).
Proof.
  intros Hc. unfold hex4. cbn [app scanstring].
  change (92 =? 34) with false. change (92 =? 92) with true.
  change (117 =? 117) with true. cbv iota.
  rewrite decode_hex4_hex4 by assumption.
  destruct (is_high_surrogate c); [|reflexivity].
  unfold lookahead.
  destruct X as [|b1 [|u1 r3]]; try reflexivity.
  destruct ((b1 =? 92) && (u1 =? 117)); [|reflexivity].
  destruct r3 as [|l1 [|l2 [|l3 [|l4 r4]]]]; try reflexivity.
  destruct (decode_hex4 l1 l2 l3 l4) as [uni2|]; [|reflexivity].
  destruct (is_low_surrogate uni2); reflexivity.
Qed.

Lemma lookahead_low (s2 : N) (X : str) :
  s2 < 65536 -> is_low_surrogate s2 = true ->
  lookahead (92 :: 117 :: hex4 s2 ++ X) = LowEscape s2 X.
Proof.
  intros Hs Hl. unfold hex4, lookahead. cbn [app].
  change ((92 =? 92) && (117 =? 117)) with true. cbv iota.
  rewrite decode_hex4_hex4, Hl by assumption. reflexivity.
Qed.

Lemma lookahead_not_low (c : N) (X : str) :
  c < 65536 -> is_low_surrogate c = false ->
  lookahead (92 :: 117 :: hex4 c ++ X) = Plain.
Proof.
  intros Hs Hl. unfold hex4, lookahead. cbn [app].
  change ((92 =? 92) && (117 =? 117)) with true. cbv iota.
  rewrite decode_hex4_hex4, Hl by assumption. reflexivity.
Qed.

(** After the escape of a text that does not start with a low
    surrogate, and the closing quote, no low-surrogate escape follows. *)
Lemma lookahead_escape (s rest : str) :
  match s with
  | c :: _ => c < 0x110000 /\ is_low_surrogate c = false
  | [] => True
  end ->
  lookahead (escape s ++ 34 :: rest) = Plain.
Proof.
  destruct s as [|c s]; intros H.
  - simpl. destruct rest; reflexivity.
  - destruct H as [Hc Hl]. unfold escape. cbn [flat_map].
    rewrite <- app_assoc.
    set (X := flat_map escape_char s ++ 34 :: rest).
    assert (HX : exists x X', X = x :: X').
    { unfold X. destruct (flat_map escape_char s); simpl; eauto. }
    destruct (escape_char_shape c Hc) as [e He Hb| H1 H2 H3 | H1 | s1 s2 ? ? ? ? Hl1 ?].
    + cbn [app]. unfold lookahead.
      destruct (N.eqb_spec e 117); [contradiction|].
      rewrite andb_false_r. reflexivity.
    + destruct HX as (x & X' & ->). cbn [app]. unfold lookahead.
      destruct (N.eqb_spec c 92); [contradiction|]. reflexivity.
    + cbn [app]. apply lookahead_not_low; assumption.
    + rewrite <- app_assoc. cbn [app]. apply lookahead_not_low; assumption.
Qed.

Lemma text_ok_cons (c : N) (s : str) :
  text_ok (c :: s) = true ->
  c < 0x110000 /\ text_ok s = true /\
  (is_high_surrogate c = true ->
   match s with
   | c2 :: _ => c2 < 0x110000 /\ is_low_surrogate c2 = false
   | [] => True
   end).
Proof.
  cbn [text_ok]. rewrite !andb_true_iff, negb_true_iff, N.ltb_lt.
  intros [[Hc Hpair] Hs]. repeat split; try assumption.
  intros Hh. rewrite Hh in Hpair. destruct s as [|c2 s]; [exact I|].
  cbn [text_ok] in Hs. rewrite !andb_true_iff, N.ltb_lt in Hs.
  simpl in Hpair. intuition.
Qed.

Lemma scanstring_escape (s rest : str) :
  text_ok s = true -> scanstring (escape s ++ 34 :: rest) = Some (s, rest).
Proof.
  induction s as [|c s IH]; intros Hok.
  - reflexivity.
  - apply text_ok_cons in Hok. destruct Hok as (Hc & Hs & Hnext).
    unfold escape. cbn [flat_map]. rewrite <- app_assoc.
    fold (escape s). specialize (IH Hs).
    destruct (escape_char_shape c Hc) as [e He Hb| H1 H2 H3 | H1 | s1 s2 ? ? Hh1 Hl2 Hl1 Hj].
    + cbn [app]. rewrite (scanstring_short e c) by assumption.
      rewrite IH. reflexivity.
    + cbn [app]. rewrite scanstring_plain by assumption.
      rewrite IH. reflexivity.
    + cbn [app]. rewrite scanstring_u by assumption.
      destruct (is_high_surrogate c) eqn:Hh.
      * rewrite lookahead_escape by (apply Hnext; reflexivity).
        rewrite IH. reflexivity.
      * rewrite IH. reflexivity.
    + rewrite <- app_assoc. cbn [app]. rewrite scanstring_u by assumption.
      rewrite Hh1, lookahead_low by assumption.
      rewrite Hj, IH. reflexivity.
Qed.

(** ** [scan_number] reads back an [int] *)

Lemma span_digits_digits (d : Decimal.uint) (rest : str) :
  ends_number rest -> span_digits (digits d ++ rest) = (d, rest).
Proof.
  intros Hrest.
  induction d; cbn [digits app span_digits];
    try (change (is_digit _) with true; cbv iota; rewrite IHd; reflexivity).
  destruct rest as [|c r]; [reflexivity|].
  cbn [span_digits]. destruct Hrest as [-> _]. reflexivity.
Qed.

Lemma match_frac_end (rest : str) : ends_number rest -> match_frac rest = None.
Proof.
  destruct rest as [|c [|c2 r]]; try reflexivity.
  intros (_ & H & _). unfold match_frac.
  destruct (N.eqb_spec c 46); [contradiction|]. reflexivity.
Qed.

Lemma match_exp_end (rest : str) : ends_number rest -> match_exp rest = None.
Proof.
  destruct rest as [|c r]; try reflexivity.
  intros (_ & _ & H1 & H2). unfold match_exp.
  destruct (N.eqb_spec c 101); [contradiction|].
  destruct (N.eqb_spec c 69); [contradiction|]. reflexivity.
Qed.

(** The decimal digits of a positive number start with a digit other
    than zero. *)
Lemma to_uint_head (p : positive) :
  exists c r, digits (Pos.to_uint p) = c :: r /\ is_digit c = true /\ c <> 48 /\ c <> 45.
Proof.
  assert (Hnorm : Decimal.unorm (Pos.to_uint p) = Pos.to_uint p).
  { rewrite <- DecimalPos.Unsigned.to_of, DecimalPos.Unsigned.of_to. reflexivity. }
  pose proof (DecimalPos.Unsigned.to_uint_nonzero p) as Hnz.
  destruct (Pos.to_uint p) as [|u|u|u|u|u|u|u|u|u|u] eqn:E; cbn [digits];
    try (eexists _, _; split; [reflexivity|]; split; [reflexivity|];
         split; discriminate).
  - exfalso. now apply (DecimalPos.Unsigned.to_uint_nonnil p).
  - exfalso. rewrite DecimalFacts.unorm_D0 in Hnorm.
    destruct (Decimal.uint_eq_dec u Nil) as [->|Hu].
    + apply Hnz. reflexivity.
    + pose proof (DecimalFacts.nb_digits_unorm u Hu) as Hlen.
      rewrite Hnorm in Hlen. simpl in Hlen. lia.
Qed.

Lemma scan_magnitude_digits (neg : bool) (s : str) (p : positive) (rest : str) :
  ends_number rest ->
  scan_magnitude neg s (digits (Pos.to_uint p) ++ rest) =
  Some (VInt (Z.of_int (if neg then Decimal.Neg (Pos.to_uint p)
                        else Decimal.Pos (Pos.to_uint p))), rest).
Proof.
  intros Hrest. pose proof (span_digits_digits (Pos.to_uint p) rest Hrest) as Hspan.
  destruct (to_uint_head p) as (c & r & E & Hd & H48 & _).
  rewrite E in *. cbn [app] in *. unfold scan_magnitude.
  rewrite Hd. destruct (N.eqb_spec c 48); [contradiction|].
  rewrite Hspan, match_frac_end, match_exp_end by assumption. reflexivity.
Qed.

Lemma scan_number_int (z : Z) (rest : str) :
  ends_number rest -> scan_number (str_of_int z ++ rest) = Some (VInt z, rest).
Proof.
  intros Hrest. unfold str_of_int.
  destruct z as [|p|p]; cbn [Z.to_int].
  - cbn. rewrite match_frac_end, match_exp_end by assumption. reflexivity.
  - destruct (to_uint_head p) as (c & r & E & Hd & _ & H45).
    unfold scan_number. rewrite E at 1. cbn [app].
    destruct (N.eqb_spec c 45); [contradiction|].
    rewrite scan_magnitude_digits by assumption.
    change (Decimal.Pos (Pos.to_uint p)) with (Z.to_int (Z.pos p)).
    rewrite DecimalZ.of_to. reflexivity.
  - unfold scan_number. cbn [app]. change (45 =? 45) with true. cbv iota.
    rewrite scan_magnitude_digits by assumption.
    change (Decimal.Neg (Pos.to_uint p)) with (Z.to_int (Z.neg p)).
    rewrite DecimalZ.of_to. reflexivity.
Qed.

(** ** [scan_once] on the scalars of a task *)

Lemma skip_ws_spaces (n : nat) (X : str) : skip_ws (repeat 32 n ++ X) = skip_ws X.
Proof. induction n; simpl; auto. Qed.

Lemma skip_ws_newline_indent (level : nat) (X : str) :
  skip_ws (newline_indent level ++ X) = skip_ws X.
Proof. unfold newline_indent. cbn [app skip_ws is_ws]. simpl. apply skip_ws_spaces. Qed.

Lemma scan_once_str (g : nat) (s X : str) :
  text_ok s = true -> scan_once (S g) (encode_str s ++ X) = Some (VStr s, X).
Proof.
  intros Hs. unfold encode_str. cbn [app scan_once].
  change (34 =? 34) with true. cbv iota.
  rewrite <- app_assoc. cbn [app]. rewrite scanstring_escape by assumption.
  reflexivity.
Qed.

Lemma scan_once_bool (g : nat) (b : bool) (X : str) :
  scan_once (S g) (encode_bool b ++ X) = Some (VBool b, X).
Proof. destruct b; reflexivity. Qed.

Lemma str_of_int_head (z : Z) :
  exists c r, str_of_int z = c :: r /\ (is_digit c = true \/ c = 45).
Proof.
  unfold str_of_int. destruct z as [|p|p]; cbn [Z.to_int].
  - eexists _, _. split; [reflexivity|]. left. reflexivity.
  - destruct (to_uint_head p) as (c & r & E & Hd & _). eauto.
  - eexists _, _. split; [reflexivity|]. right. reflexivity.
Qed.

Lemma scan_once_int (g : nat) (z : Z) (X : str) :
  ends_number X -> scan_once (S g) (str_of_int z ++ X) = Some (VInt z, X).
Proof.
  intros HX. pose proof (scan_number_int z X HX) as Hnum.
  destruct (str_of_int_head z) as (c & r & E & Hc).
  rewrite E in *. cbn [app] in *. cbn [scan_once]. rewrite Hnum.
  assert (H34 : (c =? 34) = false /\ (c =? 123) = false /\ (c =? 91) = false
                /\ (110 =? c) = false /\ (116 =? c) = false /\ (102 =? c) = false).
  { unfold is_digit in Hc. rewrite andb_true_iff, !N.leb_le in Hc.
    rewrite !N.eqb_neq. lia. }
  destruct H34 as (-> & -> & -> & Hn & Ht & Hf).
  cbn [lit list_ascii_of_string map strip_prefix].
  change (N_of_ascii "n") with 110. change (N_of_ascii "t") with 116.
  change (N_of_ascii "f") with 102.
  rewrite Hn, Ht, Hf. reflexivity.
Qed.

(** ** [scan_once] on a task and on the list of tasks *)

Lemma scan_once_object (g : nat) (X : str) :
  scan_once (S g) (123 :: X) = JSONObject (scan_once g) g X.
Proof. reflexivity. Qed.

Lemma scan_once_array (g : nat) (X : str) :
  scan_once (S g) (91 :: X) = JSONArray (scan_once g) g X.
Proof. reflexivity. Qed.

Lemma JSONObject_first_key (scan : str -> option (value * str)) (n level : nat) (Y : str) :
  JSONObject scan n (newline_indent level ++ 34 :: Y) =
  match object_pairs scan n Y with
  | Some (ps, rest) => Some (VDict (dict_of_pairs ps), rest)
  | None => None
  end.
Proof. unfold JSONObject. rewrite skip_ws_newline_indent. reflexivity. Qed.

Lemma object_pairs_comma (scan : str -> option (value * str)) (n level : nat)
      (k txt : str) (v : value) (Y : str) :
  text_ok k = true ->
  (forall Z, skip_ws (txt ++ Z) = txt ++ Z) ->
  scan (txt ++ 44 :: newline_indent level ++ 34 :: Y)
  = Some (v, 44 :: newline_indent level ++ 34 :: Y) ->
  object_pairs scan (S n)
    (escape k ++ 34 :: 58 :: 32 :: txt ++ 44 :: newline_indent level ++ 34 :: Y)
  = match object_pairs scan n Y with
    | Some (ps, rest) => Some ((k, v) :: ps, rest)
    | None => None
    end.
Proof.
  intros Hk Hws Hscan. cbn [object_pairs].
  rewrite scanstring_escape by assumption.
  change (skip_ws (58 :: 32 :: ?t)) with (58 :: 32 :: t).
  change (58 =? 58) with true. cbv iota.
  change (skip_ws (32 :: ?t)) with (skip_ws t).
  rewrite Hws, Hscan.
  change (skip_ws (44 :: ?t)) with (44 :: t).
  change (44 =? 125) with false. change (44 =? 44) with true. cbv iota.
  rewrite skip_ws_newline_indent. reflexivity.
Qed.

Lemma object_pairs_last (scan : str -> option (value * str)) (n level : nat)
      (k txt : str) (v : value) (Y : str) :
  text_ok k = true ->
  (forall Z, skip_ws (txt ++ Z) = txt ++ Z) ->
  scan (txt ++ newline_indent level ++ 125 :: Y)
  = Some (v, newline_indent level ++ 125 :: Y) ->
  object_pairs scan (S n)
    (escape k ++ 34 :: 58 :: 32 :: txt ++ newline_indent level ++ 125 :: Y)
  = Some ([(k, v)], Y).
Proof.
  intros Hk Hws Hscan. cbn [object_pairs].
  rewrite scanstring_escape by assumption.
  change (skip_ws (58 :: 32 :: ?t)) with (58 :: 32 :: t).
  change (58 =? 58) with true. cbv iota.
  change (skip_ws (32 :: ?t)) with (skip_ws t).
  rewrite Hws, Hscan, skip_ws_newline_indent. reflexivity.
Qed.

Lemma skip_ws_int (z : Z) (X : str) : skip_ws (str_of_int z ++ X) = str_of_int z ++ X.
Proof.
  destruct (str_of_int_head z) as (c & r & -> & Hc). cbn [app skip_ws].
  assert (is_ws c = false) as ->; [|reflexivity].
  unfold is_ws, is_digit in *. rewrite andb_true_iff, !N.leb_le in Hc.
  rewrite !orb_false_iff, !N.eqb_neq. lia.
Qed.

Lemma skip_ws_str (s X : str) : skip_ws (encode_str s ++ X) = encode_str s ++ X.
Proof. reflexivity. Qed.

Lemma skip_ws_bool (b : bool) (X : str) : skip_ws (encode_bool b ++ X) = encode_bool b ++ X.
Proof. destruct b; reflexivity. Qed.

Lemma scan_once_task (g : nat) (t : Task) (X : str) :
  (4 <= g)%nat -> task_ok t = true ->
  scan_once (S g) (dump_task 1 t ++ X) = Some (task_value t, X).
Proof.
  intros Hg Hok. unfold task_ok in Hok. apply andb_true_iff in Hok.
  destruct Hok as [Hdesc Hcreated].
  destruct g as [|[|[|[|g]]]]; try lia. clear Hg.
  unfold dump_task, encode_dict. cbn [map join fst snd].
  change (lit ": ") with [58; 32].
  change (encode_str (lit "id")) with (34 :: escape (lit "id") ++ [34]).
  change (encode_str (lit "description"))
    with (34 :: escape (lit "description") ++ [34]).
  change (encode_str (lit "completed")) with (34 :: escape (lit "completed") ++ [34]).
  change (encode_str (lit "created_at")) with (34 :: escape (lit "created_at") ++ [34]).
  repeat (rewrite <- app_assoc; cbn [app]).
  rewrite scan_once_object, JSONObject_first_key.
  rewrite (object_pairs_comma _ _ _ _ _ (VInt (id t)));
    [| reflexivity | apply skip_ws_int | apply scan_once_int; now cbn ].
  rewrite (object_pairs_comma _ _ _ _ _ (VStr (description t)));
    [| reflexivity | apply skip_ws_str | now apply scan_once_str ].
  rewrite (object_pairs_comma _ _ _ _ _ (VBool (completed t)));
    [| reflexivity | apply skip_ws_bool | apply scan_once_bool ].
  rewrite (object_pairs_last _ _ _ _ _ (VStr (created_at t)));
    [| reflexivity | apply skip_ws_str | now apply scan_once_str ].
  reflexivity.
Qed.

Lemma join_tasks_head (ts : list Task) (t : Task) (X : str) :
  exists Y, join (44 :: newline_indent 1) (map (dump_task 1) (t :: ts)) ++ X = 123 :: Y.
Proof.
  destruct ts; cbn [map join]; unfold dump_task, encode_dict; cbn [map app];
    eexists; reflexivity.
Qed.

Lemma array_items_tasks (scan : str -> option (value * str)) (ts : list Task) :
  (forall t X, task_ok t = true -> scan (dump_task 1 t ++ X) = Some (task_value t, X)) ->
  forall (n : nat) (t : Task) (rest : str),
    forallb task_ok (t :: ts) = true -> (length ts < n)%nat ->
    array_items scan n
      (join (44 :: newline_indent 1) (map (dump_task 1) (t :: ts))
       ++ newline_indent 0 ++ 93 :: rest)
    = Some (map task_value (t :: ts), rest).
Proof.
  intros Hscan. induction ts as [|t' ts IH]; intros n t rest Hok Hn.
  - destruct n as [|n]; [lia|]. cbn [forallb] in Hok.
    rewrite andb_true_r in Hok.
    cbn [map join array_items]. rewrite Hscan by assumption.
    rewrite skip_ws_newline_indent. reflexivity.
  - destruct n as [|n]; [simpl in Hn; lia|].
    cbn [length] in Hn.
    cbn [forallb] in Hok. apply andb_true_iff in Hok. destruct Hok as [Ht Hrest].
    change (map (dump_task 1) (t :: t' :: ts))
      with (dump_task 1 t :: map (dump_task 1) (t' :: ts)).
    change (join ?sep (?a :: map (dump_task 1) (t' :: ts)))
      with (a ++ sep ++ join sep (map (dump_task 1) (t' :: ts))).
    repeat (rewrite <- app_assoc; cbn [app]).
    cbn [array_items]. rewrite Hscan by assumption.
    change (skip_ws (44 :: ?x)) with (44 :: x).
    change (44 =? 93) with false. change (44 =? 44) with true. cbv iota.
    rewrite skip_ws_newline_indent.
    destruct (join_tasks_head ts t' (newline_indent 0 ++ 93 :: rest)) as [Y HY].
    rewrite HY. change (skip_ws (123 :: Y)) with (123 :: Y). rewrite <- HY.
    rewrite IH; [reflexivity | assumption | lia].
Qed.

Lemma join_length (sep : str) (items : list str) :
  sep <> [] -> (length items <= S (length (join sep items)))%nat.
Proof.
  intros Hsep. induction items as [|a [|b r] IH]; cbn [join length] in *; try lia.
  rewrite !length_app. destruct sep; [contradiction|]. cbn [length] in *. lia.
Qed.

(** [json.loads] restores what [json.dump] wrote, for tasks whose texts
    hold no high surrogate right before a low one. *)
Lemma json_loads_dump (ts : list Task) :
  forallb task_ok ts = true -> json_loads (json_dump ts) = Some (tasks_value ts).
Proof.
  intros Hok. destruct ts as [|t ts]; [reflexivity|].
  unfold json_loads, json_dump, encode_list, tasks_value.
  change (map (dump_task 1) (t :: ts)) with (dump_task 1 t :: map (dump_task 1) ts).
  cbv iota.
  change (dump_task 1 t :: map (dump_task 1) ts) with (map (dump_task 1) (t :: ts)).
  set (J := join (44 :: newline_indent 1) (map (dump_task 1) (t :: ts))).
  assert (HJ : (length ts <= length J)%nat).
  { pose proof (join_length (44 :: newline_indent 1) (map (dump_task 1) (t :: ts))
                  ltac:(discriminate)) as H.
    rewrite length_map in H. cbn [length] in H. fold J in H. lia. }
  change (skip_ws (91 :: ?x)) with (91 :: x).
  set (L := length _).
  assert (HL : (length ts + 8 <= L)%nat).
  { unfold L. change (newline_indent 1) with [10; 32; 32; 32; 32].
    change (newline_indent 0) with [10].
    cbn [length app]. rewrite !length_app. cbn [length]. lia. }
  clearbody L.
  rewrite scan_once_array. unfold JSONArray.
  rewrite skip_ws_newline_indent.
  destruct (join_tasks_head ts t (newline_indent 0 ++ [93])) as [Y HY].
  fold J in HY. rewrite HY. change (skip_ws (123 :: Y)) with (123 :: Y).
  change (123 =? 93) with false. cbv iota. rewrite <- HY. unfold J.
  rewrite (array_items_tasks (scan_once L) ts); [reflexivity | | assumption | lia].
  intros t0 X Ht0. destruct L as [|g]; [lia|].
  apply scan_once_task; [lia | assumption].
Qed.

(** ** What [json.dump] writes is ASCII *)

Lemma hex_digit_ascii (n : N) : n < 16 -> is_ascii (hex_digit n) = true.
Proof. intros Hn. unfold is_ascii, hex_digit. cmp_cases; reflexivity || lia. Qed.

Lemma hex4_ascii (n : N) : forallb is_ascii (hex4 n) = true.
Proof.
  unfold hex4. cbn [forallb].
  rewrite !hex_digit_ascii by (apply N.mod_lt; discriminate). reflexivity.
Qed.

Lemma escape_char_ascii (c : N) : forallb is_ascii (escape_char c) = true.
Proof.
  unfold escape_char.
  repeat match goal with
         | |- context [if N.eqb c ?k then _ else _] => destruct (N.eqb c k)
         end; try reflexivity.
  destruct (N.leb_spec 32 c); cbn [andb].
  - destruct (N.leb_spec c 126).
    + cbn [forallb]. unfold is_ascii. rewrite andb_true_r. apply N.ltb_lt. lia.
    + destruct (c <? 0x10000).
      * cbn [forallb]. rewrite hex4_ascii. reflexivity.
      * rewrite forallb_app. cbn [forallb]. rewrite !hex4_ascii. reflexivity.
  - destruct (c <? 0x10000).
    + cbn [forallb]. rewrite hex4_ascii. reflexivity.
    + rewrite forallb_app. cbn [forallb]. rewrite !hex4_ascii. reflexivity.
Qed.

Lemma encode_str_ascii (s : str) : forallb is_ascii (encode_str s) = true.
Proof.
  unfold encode_str, escape. cbn [forallb]. rewrite forallb_app.
  cbn [forallb]. rewrite andb_true_r. change (is_ascii 34) with true.
  induction s as [|c s IH]; [reflexivity|].
  cbn [flat_map]. rewrite forallb_app, escape_char_ascii. exact IH.
Qed.

Lemma digits_ascii (d : Decimal.uint) : forallb is_ascii (digits d) = true.
Proof. induction d; cbn [digits forallb]; try rewrite IHd; reflexivity. Qed.

Lemma str_of_int_ascii (z : Z) : forallb is_ascii (str_of_int z) = true.
Proof.
  unfold str_of_int. destruct (Z.to_int z); cbn [forallb];
    rewrite digits_ascii; reflexivity.
Qed.

Lemma newline_indent_ascii (level : nat) :
  forallb is_ascii (newline_indent level) = true.
Proof.
  unfold newline_indent. cbn [forallb]. change (is_ascii 10) with true.
  induction (4 * level)%nat; [reflexivity|]. cbn [repeat forallb]. assumption.
Qed.

Lemma join_ascii (sep : str) (items : list str) :
  forallb is_ascii sep = true ->
  Forall (fun x => forallb is_ascii x = true) items ->
  forallb is_ascii (join sep items) = true.
Proof.
  intros Hsep Hitems. induction Hitems as [|x l Hx Hl IH]; [reflexivity|].
  destruct l as [|y l]; [exact Hx|].
  change (join sep (x :: y :: l)) with (x ++ sep ++ join sep (y :: l)).
  rewrite !forallb_app, Hx, Hsep, IH. reflexivity.
Qed.

Lemma dump_task_ascii (level : nat) (t : Task) :
  forallb is_ascii (dump_task level t) = true.
Proof.
  unfold dump_task, encode_dict. cbn [forallb]. rewrite !forallb_app.
  rewrite !newline_indent_ascii. cbn [forallb andb]. change (is_ascii 123) with true.
  change (is_ascii 125) with true. rewrite andb_true_r. cbn [andb].
  apply join_ascii.
  - cbn [forallb]. rewrite newline_indent_ascii. reflexivity.
  - repeat constructor; cbn [fst snd]; rewrite !forallb_app;
      rewrite ?encode_str_ascii, ?str_of_int_ascii; try reflexivity.
    destruct (completed t); reflexivity.
Qed.

(** Every character [save_tasks] writes is ASCII, so the file's UTF-8
    encoding leaves the text as it is. *)
Lemma json_dump_ascii (ts : list Task) : forallb is_ascii (json_dump ts) = true.
Proof.
  unfold json_dump, encode_list.
  destruct (map (dump_task 1) ts) as [|x l] eqn:E; [reflexivity|].
  cbn [forallb]. rewrite !forallb_app. rewrite !newline_indent_ascii.
  cbn [forallb andb]. change (is_ascii 91) with true.
  change (is_ascii 93) with true. rewrite andb_true_r. cbn [andb].
  apply join_ascii.
  - cbn [forallb]. rewrite newline_indent_ascii. reflexivity.
  - rewrite <- E. apply List.Forall_forall. intros y Hy.
    apply in_map_iff in Hy. destruct Hy as (t & <- & _). apply dump_task_ascii.
Qed.

Lemma tasks_value_inj (ts ts' : list Task) : tasks_value ts = tasks_value ts' -> ts = ts'.
Proof.
  unfold tasks_value. intros [= H]. revert ts' H.
  induction ts as [|[i d c a] ts IH]; intros [|[i' d' c' a'] ts']; simpl;
    try discriminate; [reflexivity|].
  unfold task_value at 1 2. simpl. intros [= -> -> -> -> H].
  f_equal. auto.
Qed.

(** ** Lists of tasks *)

Lemma filter_sublist {A} (f : A -> bool) (l : list A) : sublist (List.filter f l) l.
Proof.
  induction l as [|x l IH]; simpl; [constructor|].
  destruct (f x); now constructor.
Qed.

Lemma filter_Forall {A} (f : A -> bool) (l : list A) :
  Forall (fun x => f x = true) (List.filter f l).
Proof.
  induction l as [|x l IH]; simpl; [constructor|].
  destruct (f x) eqn:E; [constructor|]; assumption.
Qed.

Lemma filter_keeps {A} (f : A -> bool) (l : list A) (x : A) :
  x ∈ l -> f x = true -> x ∈ List.filter f l.
Proof.
  intros Hx Hf. apply list_elem_of_In. apply filter_In. split; [|assumption].
  now apply list_elem_of_In.
Qed.

Lemma filter_length_split {A} (f : A -> bool) (l : list A) :
  length l = (length (List.filter f l)
              + length (List.filter (fun x => negb (f x)) l))%nat.
Proof.
  induction l as [|x l IH]; simpl; [reflexivity|].
  destruct (f x); simpl; lia.
Qed.

Lemma sum_ones {A} (l : list A) : sum (map (fun _ => 1%Z) l) = Z.of_nat (length l).
Proof. induction l as [|x l IH]; simpl sum in *; simpl length; lia. Qed.

(** A list holding a task with the id [z] splits at the first one. *)
Lemma first_with_id (z : Z) (ts : list Task) :
  (exists t, t ∈ ts /\ id t = z) ->
  exists before t after,
    ts = before ++ t :: after /\ id t = z
    /\ Forall (fun t' => id t' <> z) before.
Proof.
  induction ts as [|x ts IH]; intros (t & Hin & Hid).
  - inversion Hin.
  - destruct (Z.eq_dec (id x) z) as [E|E].
    + exists [], x, ts. repeat split; auto.
    + destruct IH as (b & t' & a & -> & Hid' & Hb).
      { exists t. split; [|assumption].
        inversion Hin; subst; [contradiction | assumption]. }
      exists (x :: b), t', a. repeat split; auto.
Qed.

(** The first task with the id [z] is the one [find_task] finds. *)
Lemma find_task_first (z : Z) (before after : list Task) (t : Task) :
  Forall (fun t' => id t' <> z) before -> id t = z ->
  find_task z (before ++ t :: after) = Some (length before, t).
Proof.
  intros Hb Ht. induction Hb as [|x b Hx Hb IH]; simpl.
  - destruct (Z.eqb_spec (id t) z); [reflexivity | contradiction].
  - destruct (Z.eqb_spec (id x) z); [contradiction|]. rewrite IH. reflexivity.
Qed.

Lemma find_task_absent (z : Z) (ts : list Task) :
  Forall (fun t => id t <> z) ts -> find_task z ts = None.
Proof.
  induction 1 as [|x ts Hx Hts IH]; simpl; [reflexivity|].
  destruct (Z.eqb_spec (id x) z); [contradiction|]. rewrite IH. reflexivity.
Qed.

Lemma delete_found {A} (before after : list A) (x : A) :
  delete (length before) (before ++ x :: after) = before ++ after.
Proof. induction before as [|y b IH]; simpl; [reflexivity|]. now f_equal. Qed.

Lemma insert_found {A} (before after : list A) (x y : A) :
  <[length before := y]> (before ++ x :: after) = before ++ y :: after.
Proof. induction before as [|z b IH]; simpl; [reflexivity|]. now f_equal. Qed.

(** ** The operations of [TodoList] *)

Section StoreProperties.

Context {unicode : UnicodeData}.

Lemma emit_all_app (es es' : list event) (w : World) :
  emit_all (es ++ es') w = emit_all es' (emit_all es w).
Proof. apply fold_left_app. Qed.

(** [save_tasks] never raises: it writes the whole list, and answers
    whether the write went through. *)
Lemma save_tasks_run (w : World) :
  save_tasks w =
  match write_fault w with
  | None =>
      (Return true,
       set_disk (FileText (json_dump (tasks w))) (emit (Save (json_dump (tasks w))) w))
  | Some (e, d) =>
      (Return false,
       emit (Print (msg_save_error e))
            (set_disk d (emit (Save (json_dump (tasks w))) w)))
  end.
Proof.
  unfold save_tasks, try_except, bind, get_tasks, write_file.
  destruct (write_fault w) as [[e d]|]; reflexivity.
Qed.

Lemma parse_id_run (text : str) (w : World) :
  parse_id text w =
  match py_int text with
  | Some z => (Return (Some z), w)
  | None => (Return None, emit (Print msg_id_not_number) w)
  end.
Proof.
  unfold parse_id, try_except, bind, int_. destruct (py_int text); reflexivity.
Qed.

Lemma strip_nonempty (d : str) :
  strip d <> [] -> is_empty d || str_eqb (strip d) [] = false.
Proof.
  intros H. apply orb_false_iff. split.
  - destruct d; [contradiction H; reflexivity | reflexivity].
  - destruct (str_eqb (strip d) []) eqn:E; [|reflexivity].
    apply str_eqb_eq in E. contradiction.
Qed.

(** C8. A description that is empty or all whitespace is refused:
    [add_task] prints the error and returns [False]; the world is the
    one before plus that printed line, so the tasks are the same list and
    nothing was written to the file. *)
Theorem add_task_blank_rejected (w : World) (d : str) :
  forallb isspace d = true ->
  add_task d w = (Return false, emit (Print msg_empty_description) w).
Proof.
  intros Hd. unfold add_task. rewrite (strip_blank d Hd).
  rewrite orb_true_r. reflexivity.
Qed.

(** [add_task] on a description that passes the check. *)
Lemma add_task_run (w : World) (d : str) :
  strip d <> [] ->
  add_task d w =
  let task := {| id := Z.of_nat (length (tasks w)) + 1;
                 description := strip d;
                 completed := false;
                 created_at := clock w |} in
  let w1 := set_tasks (tasks w ++ [task]) w in
  match write_fault w with
  | None =>
      (Return true,
       emit (Print (msg_added (id task)))
         (set_disk (FileText (json_dump (tasks w1)))
                   (emit (Save (json_dump (tasks w1))) w1)))
  | Some (e, dk) =>
      (Return false,
       emit (Print (msg_save_error e))
            (set_disk dk (emit (Save (json_dump (tasks w1))) w1)))
  end.
Proof.
  intros Hd. unfold add_task. rewrite (strip_nonempty d Hd).
  unfold bind, get_tasks, now_text, put_tasks. rewrite save_tasks_run.
  cbn [write_fault set_tasks tasks].
  destruct (write_fault w) as [[e dk]|]; reflexivity.
Qed.

(** C1, as the code has it. For a description that is not empty once
    stripped, [add_task] appends one task with id = number of tasks
    before + 1, the stripped description, [completed = False] and the
    current time; the count grows by one.  It returns [True] exactly
    when the write to the file goes through. *)
Theorem add_task_appends (w : World) (d : str) :
  strip d <> [] ->
  exists w',
    add_task d w = (Return (write_ok w), w')
    /\ tasks w' = tasks w ++ [ {| id := Z.of_nat (length (tasks w)) + 1;
                                  description := strip d;
                                  completed := false;
                                  created_at := clock w |} ]
    /\ length (tasks w') = S (length (tasks w)).
Proof.
  intros Hd. rewrite (add_task_run w d Hd). cbv zeta. unfold write_ok.
  destruct (write_fault w) as [[e dk]|]; eexists; (split; [reflexivity|]);
    cbn [tasks emit set_disk set_tasks]; rewrite length_app; cbn [length];
    split; (reflexivity || lia).
Qed.

(** While no id exceeds the number of tasks (as long as only the last
    task was ever deleted), the id [add_task] assigns is new. *)
Lemma add_task_id_new_without_gaps (w : World) (d : str) :
  strip d <> [] ->
  Forall (fun t => (id t <= Z.of_nat (length (tasks w)))%Z) (tasks w) ->
  exists task,
    tasks (snd (add_task d w)) = tasks w ++ [task]
    /\ Forall (fun t => id t <> id task) (tasks w).
Proof.
  intros Hd Hids. rewrite (add_task_run w d Hd). cbv zeta.
  eexists. split.
  - destruct (write_fault w) as [[e dk]|]; reflexivity.
  - eapply Forall_impl; [exact Hids|]. cbn [id]. intros t Ht. lia.
Qed.

(** What [load_tasks] does, by the state of the backing file. *)
Lemma load_tasks_run (w : World) :
  load_tasks w =
  match disk w with
  | NoFile => (Return (VList []), w)
  | FileText s =>
      match json_loads s with
      | Some v => (Return v, w)
      | None => (Return (VList []), emit (Print (msg_corrupted (filename w))) w)
      end
  | Unreadable e =>
      (Return (VList []),
       emit (Print (if isinstance e JSONDecodeError
                    then msg_corrupted (filename w)
                    else msg_load_error e)) w)
  end.
Proof.
  destruct (disk w) as [|e|s] eqn:Hdisk;
    cbv [load_tasks try_except bind path_exists json_load read_file];
    rewrite !Hdisk.
  - reflexivity.
  - cbn [handle]. destruct (isinstance e JSONDecodeError); reflexivity.
  - destruct (json_loads s) as [v|]; reflexivity.
Qed.

(** C9, as the code has it. [load_tasks] always returns: every
    exception raised inside is caught, and the file is left as it was.
    A missing file gives the empty list and no line at all.  For a file
    that is there, what [json.load] does decides: its value is returned
    as it is; [JSONDecodeError] gives the empty list and the warning;
    any other exception gives the empty list and the error line. *)
Theorem load_tasks_never_raises (w : World) :
  (exists v, fst (load_tasks w) = Return v)
  /\ disk (snd (load_tasks w)) = disk w
  /\ match disk w with
     | NoFile => load_tasks w = (Return (VList []), w)
     | _ =>
         match json_load w with
         | (Return v, w') => load_tasks w = (Return v, w')
         | (Raise e, w') =>
             load_tasks w
             = (Return (VList []),
                emit (Print (if isinstance e JSONDecodeError
                             then msg_corrupted (filename w')
                             else msg_load_error e)) w')
         end
     end.
Proof.
  rewrite load_tasks_run. unfold json_load, bind, read_file.
  destruct (disk w) as [|e|s] eqn:Hdisk.
  - eauto.
  - cbn [raise fst snd disk emit]. destruct (isinstance e JSONDecodeError); eauto.
  - destruct (json_loads s) as [v|]; cbn [ret raise fst snd disk emit isinstance
      class_of subclass]; eauto.
Qed.

(** C4, as the code has it. When [save_tasks] returns [True] and no
    text of a task holds a high surrogate immediately followed by a low
    one (the texts being made of code points, below 0x110000),
    [load_tasks] returns the saved list: the same tasks in the same
    order, with the same ids, descriptions, flags and timestamps. *)
Theorem save_then_load (w : World) :
  forallb task_ok (tasks w) = true ->
  fst (save_tasks w) = Return true ->
  fst (load_tasks (snd (save_tasks w))) = Return (tasks_value (tasks w)).
Proof.
  intros Hok. rewrite save_tasks_run.
  destruct (write_fault w) as [[e d]|]; [discriminate|]. intros _.
  cbn [snd]. rewrite load_tasks_run. cbn [disk set_disk].
  rewrite (json_loads_dump _ Hok). reflexivity.
Qed.

Lemma for_each_print (lines : list str) (w : World) :
  for_each lines print w = (Return tt, emit_all (map Print lines) w).
Proof.
  revert w. induction lines as [|l lines IH]; intros w; [reflexivity|].
  cbn [for_each map]. unfold bind. cbn [print]. rewrite IH. reflexivity.
Qed.

Lemma for_each_task_lines (shown : list Task) (w : World) :
  for_each shown (fun task => for_each (task_lines task) print) w
  = (Return tt, emit_all (map Print (flat_map task_lines shown)) w).
Proof.
  revert w. induction shown as [|t shown IH]; intros w; [reflexivity|].
  cbn [for_each flat_map]. unfold bind. rewrite for_each_print, IH.
  rewrite map_app, emit_all_app. reflexivity.
Qed.

(** C3. [view_tasks(show_all=False)] shows the tasks that are not
    completed: a subsequence of the store's tasks in their order, none
    of them completed, none of the pending ones left out.  When it prints
    the summary, total is the number of tasks, completed the number of
    completed ones, and pending = total - completed is the number of
    tasks shown.  It prints and changes nothing else. *)
Theorem view_tasks_pending (w : World) :
  let ts := tasks w in
  let shown := tasks_to_show false ts in
  let total := Z.of_nat (length ts) in
  let done := Z.of_nat (length (List.filter completed ts)) in
  let pending := (total - done)%Z in
  sublist shown ts
  /\ Forall (fun t => completed t = false) shown
  /\ (forall t, t ∈ ts -> completed t = false -> t ∈ shown)
  /\ pending = Z.of_nat (length shown)
  /\ view_tasks false w
     = (Return tt,
        emit_all
          (if is_empty ts then [Print msg_no_tasks]
           else if is_empty shown then [Print msg_no_pending]
           else [Print (10 :: rule 80); Print (lit "YOUR TO-DO LIST");
                 Print (rule 80)]
                ++ map Print (flat_map task_lines shown)
                ++ [Print (10 :: rule 80);
                    Print (msg_summary total done pending);
                    Print (rule 80)])
          w).
Proof.
  intros ts shown total done pending.
  assert (Hpending : pending = Z.of_nat (length shown)).
  { unfold pending, total, done, shown, tasks_to_show.
    rewrite (filter_length_split completed ts) at 1. lia. }
  split; [apply filter_sublist|].
  split.
  { unfold shown, tasks_to_show.
    eapply Forall_impl; [apply filter_Forall|].
    intros t Ht. simpl in Ht. now apply negb_true_iff. }
  split.
  { intros t Ht Hc. apply filter_keeps; [assumption|]. now rewrite Hc. }
  split; [assumption|].
  unfold view_tasks, bind, get_tasks. fold ts.
  destruct (is_empty ts); [reflexivity|].
  fold shown. destruct (is_empty shown); [reflexivity|].
  cbn [print]. rewrite for_each_task_lines. rewrite sum_ones.
  rewrite !emit_all_app. reflexivity.
Qed.

(** [delete_task] once the id is parsed and found and the user has
    answered. *)
Lemma delete_task_run (text : str) (w : World) (z : Z) (before after : list Task)
      (t : Task) (answer : str) (rest : list str) :
  py_int text = Some z ->
  tasks w = before ++ t :: after -> id t = z ->
  Forall (fun t' => id t' <> z) before ->
  stdin w = answer :: rest ->
  delete_task text w =
  let w1 := set_stdin rest (emit (Prompt (prompt_delete (description t))) w) in
  if str_eqb (lower answer) (lit "yes") then
    let w2 := set_tasks (before ++ after) w1 in
    match write_fault w with
    | None =>
        (Return true,
         emit (Print (msg_deleted z))
           (set_disk (FileText (json_dump (tasks w2)))
                     (emit (Save (json_dump (tasks w2))) w2)))
    | Some (e, d) =>
        (Return false,
         emit (Print (msg_save_error e))
              (set_disk d (emit (Save (json_dump (tasks w2))) w2)))
    end
  else (Return false, emit (Print msg_deletion_cancelled) w1).
Proof.
  intros Hint Hts Hid Hb Hin. unfold delete_task, bind. rewrite parse_id_run, Hint.
  cbn [get_tasks]. rewrite Hts, (find_task_first z before after t Hb Hid).
  unfold input. rewrite Hin.
  destruct (str_eqb (lower answer) (lit "yes")); [|reflexivity].
  cbn [put_tasks]. rewrite delete_found, save_tasks_run.
  cbn [write_fault set_tasks set_stdin emit].
  destruct (write_fault w) as [[e d]|]; reflexivity.
Qed.

(** C5, as the code has it. [delete_task] on a text [int] rejects
    prints the not-a-number error and leaves the world as it was; on an
    integer, positive or not, that is the id of no task it prints the
    does-not-exist error and leaves the world as it was; on the id of a
    task, an answer other than yes (in any case) prints the cancellation
    line, which is neither of the error lines, and leaves the tasks as
    they were; the answer yes removes the first task with that id and no
    other. *)
Theorem delete_task_outcomes (w : World) (text : str) :
  (py_int text = None ->
   delete_task text w = (Return false, emit (Print msg_id_not_number) w))
  /\ (forall z, py_int text = Some z ->
      Forall (fun t => id t <> z) (tasks w) ->
      delete_task text w = (Return false, emit (Print (msg_not_found z)) w))
  /\ (forall z before t after answer rest,
      py_int text = Some z ->
      tasks w = before ++ t :: after -> id t = z ->
      Forall (fun t' => id t' <> z) before ->
      stdin w = answer :: rest -> lower answer <> lit "yes" ->
      delete_task text w
      = (Return false,
         emit (Print msg_deletion_cancelled)
              (set_stdin rest (emit (Prompt (prompt_delete (description t))) w)))
      /\ msg_deletion_cancelled <> msg_id_not_number
      /\ (forall z', msg_deletion_cancelled <> msg_not_found z')
      /\ (forall z', msg_deletion_cancelled <> msg_deleted z'))
  /\ (forall z before t after answer rest,
      py_int text = Some z ->
      tasks w = before ++ t :: after -> id t = z ->
      Forall (fun t' => id t' <> z) before ->
      stdin w = answer :: rest -> lower answer = lit "yes" ->
      tasks (snd (delete_task text w)) = before ++ after).
Proof.
  split; [|split; [|split]].
  - intros Hint. unfold delete_task, bind. rewrite parse_id_run, Hint. reflexivity.
  - intros z Hint Hnone. unfold delete_task, bind. rewrite parse_id_run, Hint.
    cbn [get_tasks]. rewrite (find_task_absent z _ Hnone). reflexivity.
  - intros z before t after answer rest Hint Hts Hid Hb Hin Hno.
    split; [|repeat split; try intros z'; discriminate].
    rewrite (delete_task_run _ _ _ _ _ _ _ _ Hint Hts Hid Hb Hin). cbv zeta.
    destruct (str_eqb (lower answer) (lit "yes")) eqn:E; [|reflexivity].
    apply str_eqb_eq in E. contradiction.
  - intros z before t after answer rest Hint Hts Hid Hb Hin Hyes.
    rewrite (delete_task_run _ _ _ _ _ _ _ _ Hint Hts Hid Hb Hin). cbv zeta.
    rewrite Hyes. change (str_eqb (lit "yes") (lit "yes")) with true. cbv iota.
    destruct (write_fault w) as [[e d]|]; reflexivity.
Qed.

(** [mark_complete] and [mark_incomplete] once the id is parsed and
    found. *)
Lemma setCompleted_run (value : bool) (text : str) (w : World) (z : Z)
      (before after : list Task) (t : Task) :
  py_int text = Some z ->
  tasks w = before ++ t :: after -> id t = z ->
  Forall (fun t' => id t' <> z) before ->
  setCompleted value text w =
  if Bool.eqb (completed t) value then
    (Return false, emit (Print (msg_already value z)) w)
  else
    let w1 := set_tasks (before ++ set_completed value t :: after) w in
    match write_fault w with
    | None =>
        (Return true,
         emit (Print (msg_marked value z))
           (set_disk (FileText (json_dump (tasks w1)))
                     (emit (Save (json_dump (tasks w1))) w1)))
    | Some (e, d) =>
        (Return false,
         emit (Print (msg_save_error e))
              (set_disk d (emit (Save (json_dump (tasks w1))) w1)))
    end.
Proof.
  intros Hint Hts Hid Hb.
  destruct value; unfold setCompleted, mark_complete, mark_incomplete, bind;
    rewrite parse_id_run, Hint; cbn [get_tasks];
    rewrite Hts, (find_task_first z before after t Hb Hid);
    destruct (completed t); cbn [negb Bool.eqb]; try reflexivity;
    cbn [put_tasks]; rewrite insert_found, save_tasks_run;
    cbn [write_fault set_tasks];
    destruct (write_fault w) as [[e d]|]; reflexivity.
Qed.

(** C6. For the id of a task in the store, [mark_complete]
    ([value = True]) and [mark_incomplete] ([value = False]) look at the
    first task with that id.  When its flag already has the value, the
    already-marked line is printed and [False] returned, [save_tasks] is
    not called (the world is the one before plus that line), and that
    line is neither the success line nor an error line.  When the flag
    differs, it is set to the value and [save_tasks] is called on the
    new list. *)
Theorem setCompleted_guard (value : bool) (w : World) (text : str) (z : Z)
        (before after : list Task) (t : Task) :
  py_int text = Some z ->
  tasks w = before ++ t :: after -> id t = z ->
  Forall (fun t' => id t' <> z) before ->
  (completed t = value ->
   setCompleted value text w = (Return false, emit (Print (msg_already value z)) w)
   /\ (forall z', msg_already value z <> msg_marked value z')
   /\ msg_already value z <> msg_id_not_number
   /\ (forall z', msg_already value z <> msg_not_found z'))
  /\ (completed t <> value ->
      exists w' out,
        setCompleted value text w = (Return (write_ok w), w')
        /\ tasks w' = before ++ set_completed value t :: after
        /\ completed (set_completed value t) = value
        /\ trace w' = trace w ++ Save (json_dump (tasks w')) :: out
        /\ (write_fault w = None -> disk w' = FileText (json_dump (tasks w')))).
Proof.
  intros Hint Hts Hid Hb.
  rewrite (setCompleted_run value _ _ _ _ _ _ Hint Hts Hid Hb).
  split.
  - intros ->. rewrite Bool.eqb_reflx.
    split; [reflexivity|].
    destruct value; repeat split; unfold not; intros;
      match goal with
      | Hmsg : _ = _ |- _ =>
          apply (f_equal (firstn 2)) in Hmsg; vm_compute in Hmsg;
          discriminate Hmsg
      end.
  - intros Hne.
    assert (Bool.eqb (completed t) value = false) as ->.
    { apply Bool.eqb_false_iff. assumption. }
    cbv zeta. unfold write_ok.
    destruct (write_fault w) as [[e d]|]; eexists _, _;
      (split; [reflexivity|]); cbn [tasks trace disk emit set_disk set_tasks];
      repeat split; try discriminate; rewrite <- app_assoc; reflexivity.
Qed.

(** C10. Marking a pending task complete (or a completed one
    incomplete) changes one field of one task: the tasks before and
    after the first task with that id are the same, in the same places,
    and that task keeps its id, description and timestamp and gets the
    new flag; the list keeps its length.  This holds whether or not the
    save that follows succeeds. *)
Theorem setCompleted_frame (value : bool) (w : World) (text : str) (z : Z)
        (before after : list Task) (t : Task) :
  py_int text = Some z ->
  tasks w = before ++ t :: after -> id t = z ->
  Forall (fun t' => id t' <> z) before ->
  completed t = negb value ->
  exists t',
    tasks (snd (setCompleted value text w)) = before ++ t' :: after
    /\ id t' = id t /\ description t' = description t
    /\ created_at t' = created_at t /\ completed t' = value
    /\ length (tasks (snd (setCompleted value text w))) = length (tasks w).
Proof.
  intros Hint Hts Hid Hb Hflag.
  rewrite (setCompleted_run value _ _ _ _ _ _ Hint Hts Hid Hb).
  assert (Bool.eqb (completed t) value = false) as ->.
  { rewrite Hflag. destruct value; reflexivity. }
  exists (set_completed value t). cbv zeta.
  destruct (write_fault w) as [[e d]|];
    cbn [snd tasks emit set_disk set_tasks];
    repeat split; rewrite Hts, !length_app; reflexivity.
Qed.

(** [clear_completed] once the user has answered. *)
Lemma clear_completed_run (w : World) (answer : str) (rest : list str) :
  List.filter completed (tasks w) <> [] -> stdin w = answer :: rest ->
  clear_completed w =
  let n := Z.of_nat (length (List.filter completed (tasks w))) in
  let w1 := set_stdin rest (emit (Prompt (prompt_clear n)) w) in
  if str_eqb (lower answer) (lit "yes") then
    let w2 := set_tasks (List.filter (fun t => negb (completed t)) (tasks w)) w1 in
    match write_fault w with
    | None =>
        (Return true,
         emit (Print (msg_cleared n))
           (set_disk (FileText (json_dump (tasks w2)))
                     (emit (Save (json_dump (tasks w2))) w2)))
    | Some (e, d) =>
        (Return false,
         emit (Print (msg_save_error e))
              (set_disk d (emit (Save (json_dump (tasks w2))) w2)))
    end
  else (Return false, emit (Print msg_operation_cancelled) w1).
Proof.
  intros Hsome Hin. unfold clear_completed, bind. cbn [get_tasks].
  destruct (List.filter completed (tasks w)) as [|c cs] eqn:E; [contradiction|].
  cbn [is_empty]. unfold input. rewrite Hin.
  destruct (str_eqb (lower answer) (lit "yes")); [|reflexivity].
  cbn [get_tasks put_tasks set_stdin emit tasks]. rewrite save_tasks_run.
  cbn [write_fault set_tasks set_stdin emit].
  destruct (write_fault w) as [[e d]|]; reflexivity.
Qed.

(** C7, as the code has it. With no completed task [clear_completed]
    prints the nothing-to-clear line without prompting and leaves the
    world as it was.  With N > 0 completed tasks and the answer yes, the
    tasks left are a subsequence of the old ones in their order, none
    completed, every pending one kept, N fewer than before.  When the
    save succeeds the file holds them, the cleared line with the count N
    is printed and [True] returned; when it fails, [False] is returned
    and the line printed after the attempt is the save error, which is
    not the cleared line: no count is reported. *)
Theorem clear_completed_outcomes (w : World) :
  (List.filter completed (tasks w) = [] ->
   clear_completed w = (Return false, emit (Print msg_nothing_to_clear) w))
  /\ (forall answer rest,
      List.filter completed (tasks w) <> [] ->
      stdin w = answer :: rest -> lower answer = lit "yes" ->
      let n := length (List.filter completed (tasks w)) in
      exists w',
        clear_completed w = (Return (write_ok w), w')
        /\ sublist (tasks w') (tasks w)
        /\ Forall (fun t => completed t = false) (tasks w')
        /\ (forall t, t ∈ tasks w -> completed t = false -> t ∈ tasks w')
        /\ length (tasks w) = (length (tasks w') + n)%nat
        /\ (write_fault w = None ->
            trace w' = trace w ++ [ Prompt (prompt_clear (Z.of_nat n));
                                    Save (json_dump (tasks w'));
                                    Print (msg_cleared (Z.of_nat n)) ]
            /\ disk w' = FileText (json_dump (tasks w')))
        /\ (forall e d, write_fault w = Some (e, d) ->
            clear_completed w = (Return false, w')
            /\ trace w' = trace w ++ [ Prompt (prompt_clear (Z.of_nat n));
                                       Save (json_dump (tasks w'));
                                       Print (msg_save_error e) ]
            /\ disk w' = d
            /\ msg_save_error e <> msg_cleared (Z.of_nat n))).
Proof.
  split.
  - intros Hnone. unfold clear_completed, bind. cbn [get_tasks].
    rewrite Hnone. reflexivity.
  - intros answer rest Hsome Hin Hyes n.
    rewrite (clear_completed_run w answer rest Hsome Hin). cbv zeta.
    rewrite Hyes. change (str_eqb (lit "yes") (lit "yes")) with true. cbv iota.
    fold n. unfold write_ok.
    assert (Hpending : Forall (fun t => completed t = false)
                         (List.filter (fun t => negb (completed t)) (tasks w))).
    { eapply Forall_impl; [apply filter_Forall|].
      intros t Ht. simpl in Ht. now apply negb_true_iff. }
    assert (Hkeep : forall t, t ∈ tasks w -> completed t = false ->
                    t ∈ List.filter (fun t => negb (completed t)) (tasks w)).
    { intros t Ht Hc. apply filter_keeps; [assumption|]. now rewrite Hc. }
    assert (Hlen : length (tasks w)
                   = (length (List.filter (fun t => negb (completed t)) (tasks w)) + n)%nat).
    { unfold n. rewrite (filter_length_split completed (tasks w)) at 1. lia. }
    assert (Hlines : forall e, msg_save_error e <> msg_cleared (Z.of_nat n)).
    { intros e H. apply (f_equal (firstn 1)) in H. vm_compute in H. discriminate H. }
    destruct (write_fault w) as [[e d]|]; eexists;
      (split; [reflexivity|]); cbn [tasks trace disk emit set_disk set_tasks set_stdin];
      (split; [apply filter_sublist|]);
      (split; [assumption|]); (split; [assumption|]); (split; [assumption|]);
      rewrite <- !app_assoc; cbn [app]; (split; [try discriminate|]).
    + intros e0 d0 [= <- <-]. repeat split; auto.
    + intros _. split; reflexivity.
    + discriminate.
Qed.

End StoreProperties.

(** * More of the program *)

(** ** [strip], [int] and [lower] as the menu uses them *)

Lemma lstrip_head (s : str) :
  match lstrip s with
  | c :: _ => isspace c = false
  | [] => True
  end.
Proof.
  induction s as [|c s IH]; simpl; [exact I|].
  destruct (isspace c) eqn:E; [assumption | exact E].
Qed.

Lemma lstrip_fixed (s : str) :
  match s with
  | c :: _ => isspace c = false
  | [] => True
  end -> lstrip s = s.
Proof. destruct s as [|c s]; simpl; [reflexivity|]. intros ->. reflexivity. Qed.

Lemma lstrip_snoc (l : str) (c : N) :
  isspace c = false -> lstrip (l ++ [c]) = lstrip l ++ [c].
Proof.
  intros Hc. induction l as [|x l IH]; simpl.
  - rewrite Hc. reflexivity.
  - destruct (isspace x); [assumption | reflexivity].
Qed.

Lemma lstrip_empty (s : str) : lstrip s = [] -> forallb isspace s = true.
Proof.
  induction s as [|c s IH]; simpl; [reflexivity|].
  destruct (isspace c); [assumption | discriminate].
Qed.

Lemma forallb_rev {A} (f : A -> bool) (l : list A) :
  forallb f (rev l) = forallb f l.
Proof.
  induction l as [|x l IH]; simpl; [reflexivity|].
  rewrite forallb_app, IH. simpl. rewrite andb_true_r. apply andb_comm.
Qed.

Lemma strip_trimmed (s : str) : trimmed (strip s) = true.
Proof.
  unfold trimmed, strip, rstrip. rewrite rev_involutive.
  pose proof (lstrip_head (rev (lstrip s))) as Hlast.
  apply andb_true_iff. split.
  - pose proof (lstrip_head s) as Hfirst.
    destruct (lstrip s) as [|c r]; [reflexivity|].
    cbn [rev]. rewrite lstrip_snoc by assumption.
    rewrite rev_app_distr. cbn [rev app]. rewrite Hfirst. reflexivity.
  - destruct (lstrip (rev (lstrip s))) as [|c r]; [reflexivity|].
    rewrite Hlast. reflexivity.
Qed.

Lemma trimmed_strip (s : str) : trimmed s = true -> strip s = s.
Proof.
  unfold trimmed. rewrite andb_true_iff. intros [Hfirst Hlast].
  unfold strip, rstrip.
  rewrite (lstrip_fixed s).
  - rewrite (lstrip_fixed (rev s)); [apply rev_involutive|].
    destruct (rev s); [exact I|]. now apply negb_true_iff.
  - destruct s; [exact I|]. now apply negb_true_iff.
Qed.

Lemma strip_empty_blank (s : str) : strip s = [] -> forallb isspace s = true.
Proof.
  unfold strip, rstrip. intros H.
  apply (f_equal (@rev N)) in H. rewrite rev_involutive in H. cbn [rev] in H.
  apply lstrip_empty in H. rewrite forallb_rev in H.
  pose proof (lstrip_head s) as Hhead.
  destruct (lstrip s) as [|c r] eqn:E.
  - now apply lstrip_empty.
  - cbn [forallb] in H. rewrite Hhead in H. discriminate.
Qed.

Lemma int_lstrip_spaces (a X : str) :
  forallb int_space a = true -> int_lstrip (a ++ X) = int_lstrip X.
Proof.
  induction a as [|c a IH]; simpl; [reflexivity|].
  rewrite andb_true_iff. intros [-> Ha]. auto.
Qed.

Lemma int_lstrip_fixed (c : N) (X : str) :
  int_space c = false -> int_lstrip (c :: X) = c :: X.
Proof. simpl. intros ->. reflexivity. Qed.

Lemma digit_not_space (c : N) :
  is_digit c = true \/ c = 45 -> int_space c = false /\ int_plain c = true.
Proof.
  unfold is_digit, int_space, int_plain. intros [H| ->]; [|split; reflexivity].
  apply andb_true_iff in H. destruct H as [H1 H2].
  apply N.leb_le in H1. apply N.leb_le in H2.
  split.
  - apply orb_false_iff. split.
    + apply andb_false_iff. right. apply N.leb_gt. lia.
    + apply N.eqb_neq. lia.
  - apply orb_true_iff. right. apply andb_true_iff.
    split; apply N.leb_le; lia.
Qed.

Lemma space_plain (c : N) : int_space c = true -> int_plain c = true.
Proof.
  unfold int_space, int_plain. intros H. apply orb_true_iff in H.
  apply orb_true_iff. destruct H as [H|H]; [left; exact H|].
  apply N.eqb_eq in H. subst c. right. reflexivity.
Qed.

Lemma digits_all_digits (d : Decimal.uint) : forallb is_digit (digits d) = true.
Proof. induction d; cbn [digits forallb]; try rewrite IHd; reflexivity. Qed.

Lemma digits_nonempty (d : Decimal.uint) : d <> Nil -> digits d <> [].
Proof. destruct d; cbn [digits]; intros H; try discriminate. contradiction. Qed.

Lemma int_digits_digits (d : Decimal.uint) :
  d <> Nil -> int_digits (digits d) = Some d.
Proof.
  induction d as [|d IH|d IH|d IH|d IH|d IH|d IH|d IH|d IH|d IH|d IH];
    intros Hd; [contradiction| | | | | | | | | | ];
    cbn [digits int_digits]; change (is_digit _) with true; cbv iota;
    (destruct (Decimal.uint_eq_dec d Nil) as [->|Hne]; [reflexivity|]);
    specialize (IH Hne);
    pose proof (digits_all_digits d) as Hall;
    (destruct (digits d) as [|c2 r2] eqn:E; [discriminate IH|]);
    cbn [forallb] in Hall; apply andb_true_iff in Hall; destruct Hall as [Hc2 _];
    (assert ((c2 =? 95) = false) as ->
       by (unfold is_digit in Hc2; apply andb_true_iff in Hc2;
           destruct Hc2 as [_ Hle]; apply N.leb_le in Hle;
           apply N.eqb_neq; lia));
    rewrite IH; reflexivity.
Qed.

(** The text of an integer: where it starts and ends. *)
Lemma str_of_int_ends (z : Z) :
  exists c r l r',
    str_of_int z = c :: r /\ (is_digit c = true \/ c = 45)
    /\ rev (str_of_int z) = l :: r' /\ is_digit l = true
    /\ forallb int_plain (str_of_int z) = true.
Proof.
  assert (Hd : forall d, d <> Nil ->
            exists l r', rev (digits d) = l :: r' /\ is_digit l = true).
  { intros d Hne. pose proof (digits_all_digits d) as Hall.
    rewrite <- forallb_rev in Hall.
    destruct (rev (digits d)) as [|l r'] eqn:E.
    - apply (f_equal (@rev N)) in E. rewrite rev_involutive in E.
      now apply digits_nonempty in E.
    - cbn [forallb] in Hall. apply andb_true_iff in Hall. destruct Hall. eauto. }
  assert (Hp : forall d, forallb int_plain (digits d) = true).
  { intros d. pose proof (digits_all_digits d) as Hall.
    induction (digits d) as [|c r IH]; [reflexivity|].
    cbn [forallb] in *. apply andb_true_iff in Hall. destruct Hall as [Hc Hr].
    rewrite (proj2 (digit_not_space c (or_introl Hc))). auto. }
  destruct (str_of_int_head z) as (c & r & E & Hc).
  unfold str_of_int in *. destruct z as [|p|p]; cbn [Z.to_int] in *.
  - exists c, r, 48, []. repeat split; auto.
  - destruct (Hd (Pos.to_uint p) (DecimalPos.Unsigned.to_uint_nonnil p))
      as (l & r' & Hrev & Hl).
    exists c, r, l, r'. repeat split; auto.
  - destruct (Hd (Pos.to_uint p) (DecimalPos.Unsigned.to_uint_nonnil p))
      as (l & r' & Hrev & Hl).
    exists c, r, l, (r' ++ [45]). repeat split; auto.
    + cbn [rev]. rewrite Hrev. reflexivity.
    + cbn [forallb]. rewrite Hp. reflexivity.
Qed.

Lemma int_ascii_plain (z : Z) : int_ascii (str_of_int z) = Some z.
Proof.
  destruct (str_of_int_ends z) as (c & r & l & r' & E & Hc & Hrev & Hl & _).
  assert (Hbody : rev (int_lstrip (rev (int_lstrip (str_of_int z)))) = str_of_int z).
  { assert (Hfront : int_lstrip (str_of_int z) = str_of_int z).
    { rewrite E. apply int_lstrip_fixed. now apply digit_not_space. }
    rewrite Hfront, Hrev, int_lstrip_fixed by (apply digit_not_space; now left).
    rewrite <- Hrev. apply rev_involutive. }
  unfold int_ascii. rewrite Hbody. unfold str_of_int.
  destruct z as [|p|p]; cbn [Z.to_int].
  - reflexivity.
  - destruct (to_uint_head p) as (c0 & r0 & E0 & _ & _ & H45).
    rewrite E0. assert ((c0 =? 43) = false) as ->.
    { pose proof (digits_all_digits (Pos.to_uint p)) as Hall. rewrite E0 in Hall.
      cbn [forallb] in Hall. apply andb_true_iff in Hall. destruct Hall as [Hd _].
      unfold is_digit in Hd. apply andb_true_iff in Hd. destruct Hd as [Hge _].
      apply N.leb_le in Hge. apply N.eqb_neq. lia. }
    destruct (N.eqb_spec c0 45); [contradiction|]. rewrite <- E0.
    rewrite int_digits_digits by apply DecimalPos.Unsigned.to_uint_nonnil.
    change (Decimal.Pos (Pos.to_uint p)) with (Z.to_int (Z.pos p)).
    rewrite DecimalZ.of_to. reflexivity.
  - change (45 =? 43) with false. change (45 =? 45) with true. cbv iota.
    rewrite int_digits_digits by apply DecimalPos.Unsigned.to_uint_nonnil.
    change (Decimal.Neg (Pos.to_uint p)) with (Z.to_int (Z.neg p)).
    rewrite DecimalZ.of_to. reflexivity.
Qed.

Lemma int_ascii_same_body (s s' : str) :
  rev (int_lstrip (rev (int_lstrip s))) = rev (int_lstrip (rev (int_lstrip s'))) ->
  int_ascii s = int_ascii s'.
Proof. unfold int_ascii. intros ->. reflexivity. Qed.

Lemma int_body_padded (z : Z) (a b : str) :
  forallb int_space a = true -> forallb int_space b = true ->
  rev (int_lstrip (rev (int_lstrip (a ++ str_of_int z ++ b)))) = str_of_int z.
Proof.
  intros Ha Hb.
  destruct (str_of_int_ends z) as (c & r & l & r' & E & Hc & Hrev & Hl & _).
  rewrite int_lstrip_spaces by assumption.
  assert (Hfront : int_lstrip (str_of_int z ++ b) = str_of_int z ++ b).
  { rewrite E. cbn [app]. apply int_lstrip_fixed. now apply digit_not_space. }
  rewrite Hfront, rev_app_distr, int_lstrip_spaces by (now rewrite forallb_rev).
  rewrite Hrev, int_lstrip_fixed by (apply digit_not_space; now left).
  rewrite <- Hrev. apply rev_involutive.
Qed.

Lemma int_ascii_padded (z : Z) (a b : str) :
  forallb int_space a = true -> forallb int_space b = true ->
  int_ascii (a ++ str_of_int z ++ b) = Some z.
Proof.
  intros Ha Hb. rewrite <- (int_ascii_plain z).
  apply int_ascii_same_body. rewrite (int_body_padded z a b Ha Hb).
  pose proof (int_body_padded z [] [] eq_refl eq_refl) as H.
  cbn [app] in H. rewrite app_nil_r in H. now rewrite H.
Qed.

Lemma ascii_lower_letter (x k : N) :
  97 <= k -> k <= 122 -> (ascii_lower x = k <-> x = k \/ x = k - 32).
Proof.
  intros Hlo Hhi. unfold ascii_lower.
  destruct (N.leb_spec 65 x); destruct (N.leb_spec x 90); cbn [andb]; lia.
Qed.

(** ** Lists of tasks, continued *)

Lemma find_task_found (z : Z) (ts : list Task) (i : nat) (t : Task) :
  find_task z ts = Some (i, t) ->
  exists before after,
    ts = before ++ t :: after /\ length before = i /\ id t = z
    /\ Forall (fun t' => id t' <> z) before.
Proof.
  revert i. induction ts as [|x ts IH]; intros i; simpl; [discriminate|].
  destruct (Z.eqb_spec (id x) z) as [E|E].
  - intros [= <- <-]. exists [], ts. repeat split; auto.
  - destruct (find_task z ts) as [[j t']|]; [|discriminate].
    intros [= <- <-]. destruct (IH j eq_refl) as (b & a & -> & <- & Hid & Hb).
    exists (x :: b), a. repeat split; auto.
Qed.

Lemma filter_Forall_keeps {A} (P : A -> Prop) (f : A -> bool) (l : list A) :
  Forall P l -> Forall P (List.filter f l).
Proof.
  induction 1 as [|x l Hx Hl IH]; simpl; [constructor|].
  destruct (f x); [constructor|]; assumption.
Qed.

Lemma filter_filter_none {A} (f : A -> bool) (l : list A) :
  List.filter f (List.filter (fun x => negb (f x)) l) = [].
Proof.
  induction l as [|x l IH]; simpl; [reflexivity|].
  destruct (f x) eqn:E; simpl; [assumption|]. rewrite E. assumption.
Qed.

Lemma set_completed_back (b : bool) (t : Task) :
  completed t = b -> set_completed b (set_completed (negb b) t) = t.
Proof. destruct t. unfold set_completed. simpl. intros ->. reflexivity. Qed.

Lemma well_formed_set_completed (b : bool) (t : Task) :
  well_formed t -> well_formed (set_completed b t).
Proof. unfold well_formed. destruct t. simpl. auto. Qed.

(** ** Every command, case by case *)

Section MoreProperties.

Context {unicode : UnicodeData}.

Lemma fields_emit_all (es : list event) (w : World) :
  tasks (emit_all es w) = tasks w /\ disk (emit_all es w) = disk w
  /\ stdin (emit_all es w) = stdin w
  /\ write_fault (emit_all es w) = write_fault w
  /\ filename (emit_all es w) = filename w
  /\ clock (emit_all es w) = clock w
  /\ trace (emit_all es w) = trace w ++ es.
Proof.
  revert w. induction es as [|e es IH]; intros w.
  - cbn. now rewrite app_nil_r.
  - change (emit_all (e :: es) w) with (emit_all es (emit e w)).
    destruct (IH (emit e w)) as (-> & -> & -> & -> & -> & -> & ->).
    cbn. now rewrite <- app_assoc.
Qed.

(** [add_task], whatever the description. *)
Lemma add_task_total (d : str) (w : World) :
  add_task d w =
  if is_empty d || str_eqb (strip d) [] then
    (Return false, emit (Print msg_empty_description) w)
  else
    let task := {| id := Z.of_nat (length (tasks w)) + 1;
                   description := strip d;
                   completed := false;
                   created_at := clock w |} in
    let w1 := set_tasks (tasks w ++ [task]) w in
    match write_fault w with
    | None =>
        (Return true,
         emit (Print (msg_added (id task)))
           (set_disk (FileText (json_dump (tasks w1)))
                     (emit (Save (json_dump (tasks w1))) w1)))
    | Some (e, dk) =>
        (Return false,
         emit (Print (msg_save_error e))
              (set_disk dk (emit (Save (json_dump (tasks w1))) w1)))
    end.
Proof.
  destruct (is_empty d || str_eqb (strip d) []) eqn:E.
  - unfold add_task. rewrite E. reflexivity.
  - apply add_task_run. intros H. rewrite H in E.
    rewrite orb_true_r in E. discriminate.
Qed.

Lemma blank_check (d : str) :
  is_empty d || str_eqb (strip d) [] = forallb isspace d.
Proof.
  destruct (forallb isspace d) eqn:E.
  - rewrite (strip_blank d E). apply orb_true_r.
  - apply strip_nonempty. intros H. apply strip_empty_blank in H. congruence.
Qed.

(** [delete_task], whatever the text, the list and the user's answer. *)
Lemma delete_task_total (text : str) (w : World) :
  delete_task text w =
  match py_int text with
  | None => (Return false, emit (Print msg_id_not_number) w)
  | Some z =>
      match find_task z (tasks w) with
      | None => (Return false, emit (Print (msg_not_found z)) w)
      | Some (i, t) =>
          match stdin w with
          | [] =>
              (Raise {| class_of := EOFError;
                        text_of := lit "EOF when reading a line" |},
               emit (Prompt (prompt_delete (description t))) w)
          | answer :: rest =>
              let w1 := set_stdin rest
                          (emit (Prompt (prompt_delete (description t))) w) in
              if str_eqb (lower answer) (lit "yes") then
                let w2 := set_tasks (delete i (tasks w)) w1 in
                match write_fault w with
                | None =>
                    (Return true,
                     emit (Print (msg_deleted z))
                       (set_disk (FileText (json_dump (tasks w2)))
                                 (emit (Save (json_dump (tasks w2))) w2)))
                | Some (e, d) =>
                    (Return false,
                     emit (Print (msg_save_error e))
                          (set_disk d (emit (Save (json_dump (tasks w2))) w2)))
                end
              else (Return false, emit (Print msg_deletion_cancelled) w1)
          end
      end
  end.
Proof.
  unfold delete_task, bind. rewrite parse_id_run.
  destruct (py_int text) as [z|]; [|reflexivity].
  cbn [get_tasks]. destruct (find_task z (tasks w)) as [[i t]|]; [|reflexivity].
  unfold input. destruct (stdin w) as [|answer rest]; [reflexivity|].
  destruct (str_eqb (lower answer) (lit "yes")); [|reflexivity].
  cbn [put_tasks]. rewrite save_tasks_run.
  cbn [write_fault set_tasks set_stdin emit].
  destruct (write_fault w) as [[e d]|]; reflexivity.
Qed.

(** [mark_complete] and [mark_incomplete], whatever the text and the
    list. *)
Lemma setCompleted_total (value : bool) (text : str) (w : World) :
  setCompleted value text w =
  match py_int text with
  | None => (Return false, emit (Print msg_id_not_number) w)
  | Some z =>
      match find_task z (tasks w) with
      | None => (Return false, emit (Print (msg_not_found z)) w)
      | Some (i, t) =>
          if Bool.eqb (completed t) value then
            (Return false, emit (Print (msg_already value z)) w)
          else
            let w1 := set_tasks (<[i := set_completed value t]> (tasks w)) w in
            match write_fault w with
            | None =>
                (Return true,
                 emit (Print (msg_marked value z))
                   (set_disk (FileText (json_dump (tasks w1)))
                             (emit (Save (json_dump (tasks w1))) w1)))
            | Some (e, d) =>
                (Return false,
                 emit (Print (msg_save_error e))
                      (set_disk d (emit (Save (json_dump (tasks w1))) w1)))
            end
      end
  end.
Proof.
  destruct value; unfold setCompleted, mark_complete, mark_incomplete, bind;
    rewrite parse_id_run; (destruct (py_int text) as [z|]; [|reflexivity]);
    cbn [get_tasks];
    (destruct (find_task z (tasks w)) as [[i t]|]; [|reflexivity]);
    destruct (completed t); cbn [negb Bool.eqb]; try reflexivity;
    cbn [put_tasks]; rewrite save_tasks_run; cbn [write_fault set_tasks];
    destruct (write_fault w) as [[e d]|]; reflexivity.
Qed.

(** [clear_completed], whatever the list and the user's answer. *)
Lemma clear_completed_total (w : World) :
  clear_completed w =
  let n := Z.of_nat (length (List.filter completed (tasks w))) in
  if is_empty (List.filter completed (tasks w)) then
    (Return false, emit (Print msg_nothing_to_clear) w)
  else
    match stdin w with
    | [] =>
        (Raise {| class_of := EOFError;
                  text_of := lit "EOF when reading a line" |},
         emit (Prompt (prompt_clear n)) w)
    | answer :: rest =>
        let w1 := set_stdin rest (emit (Prompt (prompt_clear n)) w) in
        if str_eqb (lower answer) (lit "yes") then
          let w2 := set_tasks (List.filter (fun t => negb (completed t)) (tasks w))
                              w1 in
          match write_fault w with
          | None =>
              (Return true,
               emit (Print (msg_cleared n))
                 (set_disk (FileText (json_dump (tasks w2)))
                           (emit (Save (json_dump (tasks w2))) w2)))
          | Some (e, d) =>
              (Return false,
               emit (Print (msg_save_error e))
                    (set_disk d (emit (Save (json_dump (tasks w2))) w2)))
          end
        else (Return false, emit (Print msg_operation_cancelled) w1)
    end.
Proof.
  unfold clear_completed, bind. cbn [get_tasks]. cbv zeta.
  destruct (is_empty (List.filter completed (tasks w))); [reflexivity|].
  unfold input. destruct (stdin w) as [|answer rest]; [reflexivity|].
  destruct (str_eqb (lower answer) (lit "yes")); [|reflexivity].
  cbn [get_tasks put_tasks set_stdin emit tasks]. rewrite save_tasks_run.
  cbn [write_fault set_tasks set_stdin emit].
  destruct (write_fault w) as [[e d]|]; reflexivity.
Qed.

(** [view_tasks] prints and does nothing else. *)
Lemma view_tasks_total (show_all : bool) (w : World) :
  exists lines, view_tasks show_all w = (Return tt, emit_all (map Print lines) w).
Proof.
  unfold view_tasks, bind, get_tasks.
  destruct (is_empty (tasks w)); [exists [msg_no_tasks]; reflexivity|].
  set (shown := tasks_to_show show_all (tasks w)).
  destruct (is_empty shown); [exists [msg_no_pending]; reflexivity|].
  cbn [print]. rewrite for_each_task_lines.
  set (summary := msg_summary _ _ _).
  exists ([10 :: rule 80; lit "YOUR TO-DO LIST"; rule 80]
          ++ flat_map task_lines shown
          ++ [10 :: rule 80; summary; rule 80]).
  rewrite !map_app, !emit_all_app. reflexivity.
Qed.

(** ** What every command keeps to *)

Lemma synced_same (w w' : World) :
  tasks w' = tasks w -> disk w' = disk w -> synced w -> synced w'.
Proof. unfold synced. intros -> ->. auto. Qed.

Ltac contract_goal :=
  cbn [fst snd tasks disk stdin write_fault emit set_disk set_tasks set_stdin];
  repeat split;
  try discriminate; try reflexivity; try congruence; auto;
  try (intros; now apply synced_same);
  try (repeat match goal with H : stdin _ = _ |- _ => rewrite H; clear H end;
       cbn [length]; lia);
  try (match goal with
       | H : Raise _ = Raise _ |- _ => injection H as <-; reflexivity
       end);
  try (intros; left; reflexivity).

Lemma contract_ret {A} (a : A) : contract (ret a).
Proof. intros w. unfold ret. contract_goal. Qed.

Lemma contract_print (line : str) : contract (print line).
Proof. intros w. unfold print. contract_goal. Qed.

Lemma contract_input (prompt : str) : contract (input prompt).
Proof.
  intros w. unfold input. destruct (stdin w) as [|l rest] eqn:E; contract_goal.
Qed.

Lemma contract_bind {A B} (m : M A) (k : A -> M B) :
  contract m -> (forall a, contract (k a)) -> contract (bind m k).
Proof.
  intros Hm Hk w. unfold bind.
  destruct (Hm w) as (Hf & Hlen & Hraise & Hwf & Hsync).
  destruct (m w) as [[a|e] w1]; cbn [fst snd] in *.
  - destruct (Hk a w1) as (Hf' & Hlen' & Hraise' & Hwf' & Hsync').
    split; [congruence|]. split; [lia|]. split; [exact Hraise'|].
    split; [auto|]. intros Hnone Hs. apply Hsync'; [congruence | auto].
  - split; [assumption|]. split; [assumption|].
    split; [|split; assumption].
    intros e0 [= <-]. apply Hraise. reflexivity.
Qed.

Lemma contract_for_each {A} (l : list A) (body : A -> M unit) :
  (forall x, contract (body x)) -> contract (for_each l body).
Proof.
  intros Hbody. induction l as [|x l IH]; cbn [for_each].
  - apply contract_ret.
  - apply contract_bind; auto.
Qed.

Lemma contract_view_tasks (show_all : bool) : contract (view_tasks show_all).
Proof.
  intros w. destruct (view_tasks_total show_all w) as (lines & ->). cbn [fst snd].
  destruct (fields_emit_all (map Print lines) w) as (Ht & Hd & Hs & Hf & _).
  split; [exact Hf|]. split; [rewrite Hs; lia|].
  split; [discriminate|]. split; [now rewrite Ht|].
  intros _. apply synced_same; assumption.
Qed.

Lemma well_formed_new (d : str) (n : nat) (now : str) :
  forallb isspace d = false ->
  well_formed {| id := Z.of_nat n + 1; description := strip d;
                 completed := false; created_at := now |}.
Proof.
  intros Hd. repeat split; cbn.
  - lia.
  - intros H. apply strip_empty_blank in H. congruence.
  - apply strip_trimmed.
Qed.

Lemma contract_add_task (d : str) : contract (add_task d).
Proof.
  intros w. rewrite add_task_total, blank_check.
  destruct (forallb isspace d) eqn:Hd; [contract_goal|].
  cbv zeta. destruct (write_fault w) as [[e dk]|] eqn:Hf; contract_goal.
  all: intros Hwf; apply Forall_app; split; [assumption|];
    constructor; [|constructor]; now apply well_formed_new.
Qed.

Lemma contract_delete_task (text : str) : contract (delete_task text).
Proof.
  intros w. rewrite delete_task_total.
  destruct (py_int text) as [z|]; [|contract_goal].
  destruct (find_task z (tasks w)) as [[i t]|] eqn:Hfind; [|contract_goal].
  destruct (stdin w) as [|answer rest] eqn:Hin; [contract_goal|].
  cbv zeta. destruct (str_eqb (lower answer) (lit "yes")); [|contract_goal].
  destruct (write_fault w) as [[e d]|] eqn:Hf; contract_goal.
  all: intros Hwf; now apply Forall_delete.
Qed.

Lemma contract_setCompleted (value : bool) (text : str) :
  contract (setCompleted value text).
Proof.
  intros w. rewrite setCompleted_total.
  destruct (py_int text) as [z|]; [|contract_goal].
  destruct (find_task z (tasks w)) as [[i t]|] eqn:Hfind; [|contract_goal].
  destruct (Bool.eqb (completed t) value); [contract_goal|].
  assert (Hins : Forall well_formed (tasks w) ->
                 Forall well_formed (<[i := set_completed value t]> (tasks w))).
  { intros Hwf. destruct (find_task_found _ _ _ _ Hfind) as (b & a & Hts & <- & _).
    rewrite Hts in *. rewrite insert_found.
    apply Forall_app in Hwf. destruct Hwf as [Hb Ha].
    apply Forall_app. split; [assumption|].
    inversion Ha; subst. constructor; [|assumption].
    now apply well_formed_set_completed. }
  cbv zeta. destruct (write_fault w) as [[e d]|] eqn:Hf; contract_goal.
Qed.

Lemma contract_clear_completed : contract clear_completed.
Proof.
  intros w. rewrite clear_completed_total. cbv zeta.
  destruct (is_empty (List.filter completed (tasks w))); [contract_goal|].
  destruct (stdin w) as [|answer rest] eqn:Hin; [contract_goal|].
  destruct (str_eqb (lower answer) (lit "yes")); [|contract_goal].
  destruct (write_fault w) as [[e d]|] eqn:Hf; contract_goal.
  all: intros Hwf; now apply filter_Forall_keeps.
Qed.

(** ** The menu loop *)

Lemma display_menu_run (w : World) :
  display_menu w = (Return tt, emit_all (map Print menu_lines) w).
Proof. reflexivity. Qed.

Lemma display_menu_prints (w : World) :
  exists lines, display_menu w = (Return tt, emit_all (map Print lines) w).
Proof. exists menu_lines. apply display_menu_run. Qed.

Lemma contract_dispatch (choice : str) : contract (dispatch choice).
Proof.
  unfold dispatch.
  change mark_complete with (setCompleted true).
  change mark_incomplete with (setCompleted false).
  repeat match goal with
         | |- contract (if ?b then _ else _) => destruct b
         end;
    repeat first
      [ apply contract_add_task | apply contract_view_tasks
      | apply contract_setCompleted | apply contract_delete_task
      | apply contract_clear_completed
      | apply contract_input | apply contract_print | apply contract_ret
      | apply contract_for_each; intros ?
      | apply contract_bind; [|intros ?] ].
Qed.

(** One pass of the loop: what it keeps to, and that it reads a line
    whenever it returns. *)
Lemma main_step_spec (w : World) :
  write_fault (snd (main_step w)) = write_fault w
  /\ (forall e, fst (main_step w) = Raise e ->
      class_of e = EOFError /\ stdin (snd (main_step w)) = [])
  /\ (forall b, fst (main_step w) = Return b ->
      (length (stdin (snd (main_step w))) < length (stdin w))%nat)
  /\ (Forall well_formed (tasks w) -> Forall well_formed (tasks (snd (main_step w))))
  /\ (write_fault w = None -> synced w -> synced (snd (main_step w))).
Proof.
  destruct (display_menu_prints w) as (lines & Hmenu).
  destruct (fields_emit_all (map Print lines) w) as (Ht & Hd & Hs & Hf & _).
  set (w0 := emit_all (map Print lines) w) in *.
  destruct (stdin w) as [|line rest] eqn:Hin.
  - assert (Hstep : main_step w
                    = (Raise {| class_of := EOFError;
                                text_of := lit "EOF when reading a line" |},
                       emit (Prompt prompt_choice) w0)).
    { unfold main_step, bind at 1. rewrite Hmenu. fold w0.
      unfold bind, input. rewrite Hs. reflexivity. }
    rewrite Hstep. cbn [fst snd stdin tasks write_fault emit].
    split; [assumption|]. split; [intros e [= <-]; auto|].
    split; [discriminate|]. split; [now rewrite Ht|].
    intros _. apply synced_same; assumption.
  - set (w1 := set_stdin rest (emit (Prompt prompt_choice) w0)).
    assert (Hstep : main_step w = dispatch (strip line) w1).
    { unfold main_step, bind at 1. rewrite Hmenu. fold w0.
      unfold bind, input. rewrite Hs. reflexivity. }
    rewrite Hstep.
    destruct (contract_dispatch (strip line) w1) as (Hf' & Hlen & Hraise & Hwf & Hsync).
    change (stdin w1) with rest in Hlen.
    change (write_fault w1) with (write_fault w0) in Hf', Hsync.
    change (tasks w1) with (tasks w0) in Hwf.
    split; [rewrite Hf'; exact Hf|]. split; [exact Hraise|].
    split; [intros _ _; cbn [length]; lia|].
    split; [intros H; apply Hwf; now rewrite Ht|].
    intros Hnone Hsy. apply Hsync; [congruence|].
    apply (synced_same w); [exact Ht | exact Hd | assumption].
Qed.

(** The loop ends, with fuel to spare, in [break] or in [EOFError]. *)
Lemma main_loop_spec (k : nat) :
  forall w, (length (stdin w) < k)%nat ->
  exists r w',
    (forall n, (length (stdin w) < n)%nat -> main_loop n w = Some (r, w'))
    /\ (r = Return tt
        \/ exists e, r = Raise e /\ class_of e = EOFError /\ stdin w' = [])
    /\ write_fault w' = write_fault w
    /\ (Forall well_formed (tasks w) -> Forall well_formed (tasks w'))
    /\ (write_fault w = None -> synced w -> synced w').
Proof.
  induction k as [|k IH]; intros w Hk; [lia|].
  destruct (main_step_spec w) as (Hf & Hraise & Hprog & Hwf & Hsync).
  destruct (main_step w) as [[[|]|e] w1] eqn:Hstep; cbn [fst snd] in *.
  - exists (Return tt), w1. repeat split; auto.
    intros [|n] Hn; [lia|]. cbn [main_loop]. rewrite Hstep. reflexivity.
  - specialize (Hprog false eq_refl).
    destruct (IH w1 ltac:(lia)) as (r & w' & Hrun & Hr & Hf' & Hwf' & Hsync').
    exists r, w'. repeat split; auto.
    + intros [|n] Hn; [lia|]. cbn [main_loop]. rewrite Hstep.
      apply Hrun. lia.
    + congruence.
    + intros Hnone Hs. apply Hsync'; [congruence | auto].
  - exists (Raise e), w1. destruct (Hraise e eq_refl) as [Hc He].
    repeat split; auto.
    + intros [|n] Hn; [lia|]. cbn [main_loop]. rewrite Hstep. reflexivity.
    + right. eauto.
Qed.

Lemma main_spec (w : World) :
  exists r w',
    main w = Some (r, w')
    /\ (r = Return tt
        \/ exists e, r = Raise e /\ class_of e = EOFError /\ stdin w' = [])
    /\ write_fault w' = write_fault w
    /\ (Forall well_formed (tasks w) -> Forall well_formed (tasks w'))
    /\ (write_fault w = None -> synced w -> synced w').
Proof.
  unfold main. rewrite for_each_print.
  destruct (fields_emit_all (map Print welcome) w) as (Ht & Hd & Hs & Hf & _).
  set (w0 := emit_all (map Print welcome) w) in *.
  destruct (main_loop_spec (S (length (stdin w0))) w0 ltac:(lia))
    as (r & w' & Hrun & Hr & Hf' & Hwf & Hsync).
  exists r, w'. rewrite (Hrun (S (length (stdin w0))) ltac:(lia)).
  split; [reflexivity|]. split; [exact Hr|]. split; [congruence|].
  split; [intros H; apply Hwf; now rewrite Ht|].
  intros Hnone Hsy. apply Hsync; [congruence|].
  apply (synced_same w); assumption.
Qed.

(** ** Properties of the commands *)

Lemma py_int_shown (z : Z) : py_int (str_of_int z) = Some z.
Proof.
  unfold py_int.
  destruct (str_of_int_ends z) as (_ & _ & _ & _ & _ & _ & _ & _ & ->).
  apply int_ascii_plain.
Qed.

(** X1. [add_task] takes every description with a character that is
    not whitespace, and what it stores is that description without the
    whitespace around it: not empty, no whitespace first or last, under
    an id of at least 1. *)
Theorem add_task_stores_trimmed (w : World) (d : str) :
  forallb isspace d = false ->
  exists t,
    tasks (snd (add_task d w)) = tasks w ++ [t]
    /\ description t = strip d
    /\ well_formed t.
Proof.
  intros Hd. rewrite add_task_total, blank_check, Hd. cbv zeta.
  eexists. split; [destruct (write_fault w) as [[e dk]|]; reflexivity|].
  split; [reflexivity|]. now apply well_formed_new.
Qed.

(** X2. The id the program prints for a task, typed back at a prompt
    with or without ASCII blanks around it (space, tab, newline, and
    the like), is read by [int] as that id, so the [try] block that
    [delete_task], [mark_complete] and [mark_incomplete] start with
    hands the id on and prints no error.  The bound is the
    interpreter's default limit on the digits [int] converts, which
    [int_ascii] leaves out. *)
Theorem printed_id_reads_back (z : Z) (a b : str) :
  (length (str_of_int z) <= 4300)%nat ->
  forallb int_space a = true -> forallb int_space b = true ->
  py_int (a ++ str_of_int z ++ b) = Some z
  /\ forall w, parse_id (a ++ str_of_int z ++ b) w = (Return (Some z), w).
Proof.
  intros _ Ha Hb.
  assert (Hint : py_int (a ++ str_of_int z ++ b) = Some z).
  { unfold py_int.
    assert (Hplain : forall l, forallb int_space l = true ->
                               forallb int_plain l = true).
    { induction l as [|c l IH]; [reflexivity|]. cbn [forallb].
      rewrite !andb_true_iff. intros [Hc Hl]. split; [now apply space_plain | auto]. }
    destruct (str_of_int_ends z) as (_ & _ & _ & _ & _ & _ & _ & _ & Hz).
    rewrite !forallb_app, Hz, !Hplain by assumption. cbn [andb].
    now apply int_ascii_padded. }
  split; [exact Hint|]. intros w. rewrite parse_id_run, Hint. reflexivity.
Qed.

(** X3. For an ASCII answer, the confirmation test
    [answer.lower() == 'yes'] holds exactly for the three letters y, e,
    s, each in either case: nothing shorter, longer or padded counts as
    yes. *)
Theorem confirmation_ascii (answer : str) :
  forallb is_ascii answer = true ->
  (str_eqb (lower answer) (lit "yes") = true
   <-> exists y e s,
         answer = [y; e; s]
         /\ (y = 121 \/ y = 89) /\ (e = 101 \/ e = 69) /\ (s = 115 \/ s = 83)).
Proof.
  intros Hascii. unfold lower. rewrite Hascii, str_eqb_eq.
  change (lit "yes") with [121; 101; 115]. split.
  - destruct answer as [|y [|e [|x [|]]]]; cbn [map]; try discriminate.
    intros [= Hy He Hx]. exists y, e, x.
    apply ascii_lower_letter in Hy; [|lia|lia].
    apply ascii_lower_letter in He; [|lia|lia].
    apply ascii_lower_letter in Hx; [|lia|lia].
    repeat split; assumption.
  - intros (y & e & x & -> & Hy & He & Hx). cbn [map].
    f_equal; [|f_equal; [|f_equal]];
      apply ascii_lower_letter; try lia; assumption.
Qed.

(** X4. [mark_complete] and [mark_incomplete] fail as [delete_task]
    does: on a text [int] rejects they print the not-a-number error, on
    an integer that is the id of no task the does-not-exist error; they
    return [False] and change nothing else. *)
Theorem setCompleted_rejects (value : bool) (w : World) (text : str) :
  (py_int text = None ->
   setCompleted value text w
   = (Return false, emit (Print msg_id_not_number) w))
  /\ (forall z, py_int text = Some z ->
      Forall (fun t => id t <> z) (tasks w) ->
      setCompleted value text w
      = (Return false, emit (Print (msg_not_found z)) w)).
Proof.
  rewrite setCompleted_total. split.
  - intros ->. reflexivity.
  - intros z -> Hnone. rewrite (find_task_absent z _ Hnone). reflexivity.
Qed.

(** X5. Marking a task and then marking it back restores the list:
    [mark_incomplete] after [mark_complete] on a pending task (and the
    other way round on a completed one) leaves the tasks exactly as
    they were, whether or not the saves succeed. *)
Theorem setCompleted_undo (value : bool) (w : World) (text : str) (z : Z)
        (before after : list Task) (t : Task) :
  py_int text = Some z ->
  tasks w = before ++ t :: after -> id t = z ->
  Forall (fun t' => id t' <> z) before ->
  completed t = negb value ->
  tasks (snd (setCompleted (negb value) text (snd (setCompleted value text w))))
  = tasks w.
Proof.
  intros Hint Hts Hid Hb Hflag.
  assert (H1 : tasks (snd (setCompleted value text w))
               = before ++ set_completed value t :: after).
  { rewrite (setCompleted_run value _ _ _ _ _ _ Hint Hts Hid Hb).
    rewrite Hflag. destruct value; cbn [negb Bool.eqb]; cbv zeta;
      destruct (write_fault w) as [[e d]|]; reflexivity. }
  rewrite (setCompleted_run (negb value) _ _ z before after
             (set_completed value t) Hint H1 Hid Hb).
  assert (Bool.eqb (completed (set_completed value t)) (negb value) = false) as ->
    by (destruct value; reflexivity).
  cbv zeta. rewrite Hts.
  assert (Hback : set_completed (negb value) (set_completed value t) = t).
  { rewrite <- (negb_involutive value) at 2. now apply set_completed_back. }
  destruct (write_fault (snd (setCompleted value text w))) as [[e d]|];
    cbn [snd tasks emit set_disk set_tasks]; now rewrite Hback.
Qed.

(** X6. Marking twice is marking once: after [mark_complete]
    ([mark_incomplete]) on the id of a task, whatever its flag was, the
    same call again finds the flag already set, prints the
    already-marked line, returns [False] and changes nothing. *)
Theorem setCompleted_twice (value : bool) (w : World) (text : str) (z : Z)
        (before after : list Task) (t : Task) :
  py_int text = Some z ->
  tasks w = before ++ t :: after -> id t = z ->
  Forall (fun t' => id t' <> z) before ->
  let w1 := snd (setCompleted value text w) in
  setCompleted value text w1
  = (Return false, emit (Print (msg_already value z)) w1).
Proof.
  intros Hint Hts Hid Hb w1.
  assert (H1 : exists t', tasks w1 = before ++ t' :: after
                          /\ id t' = z /\ completed t' = value).
  { unfold w1. rewrite (setCompleted_run value _ _ _ _ _ _ Hint Hts Hid Hb).
    destruct (Bool.eqb (completed t) value) eqn:E.
    - exists t. apply Bool.eqb_prop in E. cbn. auto.
    - exists (set_completed value t). cbv zeta.
      destruct (write_fault w) as [[e d]|]; cbn; auto. }
  destruct H1 as (t' & Hts' & Hid' & Hflag').
  rewrite (setCompleted_run value _ _ _ _ _ _ Hint Hts' Hid' Hb).
  rewrite Hflag', Bool.eqb_reflx. reflexivity.
Qed.

(** X7. At the end of input the two commands that ask for
    confirmation show their prompt and raise [EOFError]: nothing is
    deleted, nothing is written. *)
Theorem prompt_at_end_of_input (w : World) :
  stdin w = [] ->
  (forall text z before t after,
      py_int text = Some z ->
      tasks w = before ++ t :: after -> id t = z ->
      Forall (fun t' => id t' <> z) before ->
      exists e,
        delete_task text w
        = (Raise e, emit (Prompt (prompt_delete (description t))) w)
        /\ class_of e = EOFError)
  /\ (List.filter completed (tasks w) <> [] ->
      exists e,
        clear_completed w
        = (Raise e,
           emit (Prompt (prompt_clear
                           (Z.of_nat (length (List.filter completed (tasks w))))))
                w)
        /\ class_of e = EOFError).
Proof.
  intros Hin. split.
  - intros text z before t after Hint Hts Hid Hb.
    rewrite delete_task_total, Hint, Hts, (find_task_first z before after t Hb Hid), Hin.
    eexists. split; reflexivity.
  - intros Hsome. rewrite clear_completed_total. cbv zeta.
    destruct (List.filter completed (tasks w)) as [|c cs] eqn:E; [contradiction|].
    cbn [is_empty]. rewrite Hin. eexists. split; reflexivity.
Qed.

(** X8. [clear_completed] answered with anything but yes prints the
    cancellation line and returns [False]; the tasks and the file are
    as before. *)
Theorem clear_completed_declined (w : World) (answer : str) (rest : list str) :
  List.filter completed (tasks w) <> [] ->
  stdin w = answer :: rest -> lower answer <> lit "yes" ->
  clear_completed w
  = (Return false,
     emit (Print msg_operation_cancelled)
       (set_stdin rest
          (emit (Prompt (prompt_clear
                           (Z.of_nat (length (List.filter completed (tasks w))))))
                w))).
Proof.
  intros Hsome Hin Hno. rewrite (clear_completed_run w answer rest Hsome Hin).
  cbv zeta. destruct (str_eqb (lower answer) (lit "yes")) eqn:E; [|reflexivity].
  apply str_eqb_eq in E. contradiction.
Qed.

(** X9. After a confirmed [clear_completed] no completed task is
    left: calling it again prints the nothing-to-clear line without
    prompting. *)
Theorem clear_completed_twice (w : World) (answer : str) (rest : list str) :
  List.filter completed (tasks w) <> [] ->
  stdin w = answer :: rest -> lower answer = lit "yes" ->
  let w1 := snd (clear_completed w) in
  List.filter completed (tasks w1) = []
  /\ clear_completed w1 = (Return false, emit (Print msg_nothing_to_clear) w1).
Proof.
  intros Hsome Hin Hyes w1.
  assert (H1 : List.filter completed (tasks w1) = []).
  { unfold w1. rewrite (clear_completed_run w answer rest Hsome Hin). cbv zeta.
    rewrite Hyes. change (str_eqb (lit "yes") (lit "yes")) with true. cbv iota.
    destruct (write_fault w) as [[e d]|]; cbn [snd tasks emit set_disk set_tasks];
      apply filter_filter_none. }
  split; [exact H1|]. rewrite clear_completed_total, H1. reflexivity.
Qed.

(** X10. [view_tasks] only prints, in either mode: the tasks, the
    file, the way writes go and the pending input are as before, and
    the only events it adds are printed lines. *)
Theorem view_tasks_read_only (show_all : bool) (w : World) :
  tasks (snd (view_tasks show_all w)) = tasks w
  /\ disk (snd (view_tasks show_all w)) = disk w
  /\ write_fault (snd (view_tasks show_all w)) = write_fault w
  /\ stdin (snd (view_tasks show_all w)) = stdin w
  /\ exists lines,
       trace (snd (view_tasks show_all w)) = trace w ++ map Print lines.
Proof.
  destruct (view_tasks_total show_all w) as (lines & ->). cbn [fst snd].
  destruct (fields_emit_all (map Print lines) w)
    as (Ht & Hd & Hs & Hf & _ & _ & Htr).
  repeat split; try assumption. exists lines. exact Htr.
Qed.

(** X11. [view_tasks(show_all=True)] on a store that is not empty
    lists every task, completed or not, in the order of the list, three
    lines each, between the heading and the summary, whose counts are
    the number of tasks, of completed ones, and their difference. *)
Theorem view_tasks_all (w : World) :
  tasks w <> [] ->
  let ts := tasks w in
  let total := Z.of_nat (length ts) in
  let done := Z.of_nat (length (List.filter completed ts)) in
  view_tasks true w
  = (Return tt,
     emit_all
       ([Print (10 :: rule 80); Print (lit "YOUR TO-DO LIST"); Print (rule 80)]
        ++ map Print (flat_map task_lines ts)
        ++ [Print (10 :: rule 80);
            Print (msg_summary total done (total - done));
            Print (rule 80)])
       w)
  /\ length (flat_map task_lines ts) = (3 * length ts)%nat.
Proof.
  intros Hne ts total done. split.
  - unfold view_tasks, bind, get_tasks. fold ts.
    destruct ts as [|t ts'] eqn:E; [contradiction|]. cbn [is_empty tasks_to_show].
    cbn [print]. rewrite for_each_task_lines, sum_ones.
    rewrite !emit_all_app. reflexivity.
  - clear. induction ts as [|t ts IH]; [reflexivity|].
    cbn [flat_map]. rewrite length_app, IH. cbn [length task_lines]. lia.
Qed.

Ltac by_cases :=
  repeat match goal with
         | |- context [match ?x with _ => _ end] =>
             match type of x with
             | option _ => destruct x as [?|] eqn:?
             | bool => destruct x eqn:?
             | list _ => destruct x as [|? ?] eqn:?
             | prod _ _ => destruct x as [? ?] eqn:?
             end
         end.

(** X12. A [True] from [add_task], [delete_task], [mark_complete],
    [mark_incomplete] or [clear_completed] means the change is on disk:
    the file is there and holds exactly the list in memory. *)
Theorem true_means_saved (w : World) :
  (forall d, fst (add_task d w) = Return true ->
     disk (snd (add_task d w))
     = FileText (json_dump (tasks (snd (add_task d w)))))
  /\ (forall text, fst (delete_task text w) = Return true ->
      disk (snd (delete_task text w))
      = FileText (json_dump (tasks (snd (delete_task text w)))))
  /\ (forall value text, fst (setCompleted value text w) = Return true ->
      disk (snd (setCompleted value text w))
      = FileText (json_dump (tasks (snd (setCompleted value text w)))))
  /\ (fst (clear_completed w) = Return true ->
      disk (snd (clear_completed w))
      = FileText (json_dump (tasks (snd (clear_completed w))))).
Proof.
  split; [|split; [|split]].
  - intros d. rewrite add_task_total. cbv zeta. by_cases;
      cbn [fst snd]; intros H; try discriminate H. reflexivity.
  - intros text. rewrite delete_task_total. cbv zeta. by_cases;
      cbn [fst snd]; intros H; try discriminate H. reflexivity.
  - intros value text. rewrite setCompleted_total. cbv zeta. by_cases;
      cbn [fst snd]; intros H; try discriminate H. reflexivity.
  - rewrite clear_completed_total. cbv zeta. by_cases;
      cbn [fst snd]; intros H; try discriminate H. reflexivity.
Qed.

(** X13. On a working disk a [False] from [add_task], [delete_task],
    [mark_complete], [mark_incomplete] or [clear_completed] means
    nothing happened to the tasks or to the file. *)
Theorem false_means_untouched (w : World) :
  write_fault w = None ->
  (forall d, fst (add_task d w) = Return false ->
     tasks (snd (add_task d w)) = tasks w
     /\ disk (snd (add_task d w)) = disk w)
  /\ (forall text, fst (delete_task text w) = Return false ->
      tasks (snd (delete_task text w)) = tasks w
      /\ disk (snd (delete_task text w)) = disk w)
  /\ (forall value text, fst (setCompleted value text w) = Return false ->
      tasks (snd (setCompleted value text w)) = tasks w
      /\ disk (snd (setCompleted value text w)) = disk w)
  /\ (fst (clear_completed w) = Return false ->
      tasks (snd (clear_completed w)) = tasks w
      /\ disk (snd (clear_completed w)) = disk w).
Proof.
  intros Hok. split; [|split; [|split]].
  - intros d. rewrite add_task_total, Hok. cbv zeta. by_cases;
      cbn [fst snd]; intros H; try discriminate H. split; reflexivity.
  - intros text. rewrite delete_task_total, Hok. cbv zeta. by_cases;
      cbn [fst snd]; intros H; try discriminate H; split; reflexivity.
  - intros value text. rewrite setCompleted_total, Hok. cbv zeta. by_cases;
      cbn [fst snd]; intros H; try discriminate H; split; reflexivity.
  - rewrite clear_completed_total, Hok. cbv zeta. by_cases;
      cbn [fst snd]; intros H; try discriminate H; split; reflexivity.
Qed.

(** X14. [save_tasks] always returns, [True] exactly when the write
    goes through, and never changes the tasks; what it puts in the file
    is ASCII only, whatever characters the descriptions hold. *)
Theorem save_tasks_writes_ascii (w : World) :
  exists w',
    save_tasks w = (Return (write_ok w), w')
    /\ tasks w' = tasks w
    /\ (write_fault w = None ->
        exists content,
          disk w' = FileText content /\ forallb is_ascii content = true).
Proof.
  rewrite save_tasks_run. unfold write_ok.
  destruct (write_fault w) as [[e d]|]; eexists; (split; [reflexivity|]);
    (split; [reflexivity|]); [discriminate|].
  intros _. eexists. split; [reflexivity|]. apply json_dump_ascii.
Qed.

(** X15. Two lists of tasks whose texts [json] restores are saved as
    the same text only when they are the same list. *)
Theorem json_dump_injective (ts ts' : list Task) :
  forallb task_ok ts = true -> forallb task_ok ts' = true ->
  json_dump ts = json_dump ts' -> ts = ts'.
Proof.
  intros Hok Hok' Heq. apply tasks_value_inj.
  pose proof (json_loads_dump ts Hok) as H.
  rewrite Heq, (json_loads_dump ts' Hok') in H. injection H as H.
  unfold tasks_value. now rewrite H.
Qed.

(** X16. Adding a task and then deleting the id [add_task] printed,
    confirmed with yes, gives back the list as it was, provided no
    earlier task carries that id. *)
Theorem add_then_delete (w : World) (d answer : str) (rest : list str) :
  forallb isspace d = false ->
  Forall (fun t => id t <> (Z.of_nat (length (tasks w)) + 1)%Z) (tasks w) ->
  stdin w = answer :: rest -> lower answer = lit "yes" ->
  tasks (snd (delete_task (str_of_int (Z.of_nat (length (tasks w)) + 1))
                          (snd (add_task d w))))
  = tasks w.
Proof.
  intros Hd Hfresh Hin Hyes.
  set (z := (Z.of_nat (length (tasks w)) + 1)%Z) in *.
  set (t := {| id := z; description := strip d; completed := false;
               created_at := clock w |}).
  assert (H1 : tasks (snd (add_task d w)) = tasks w ++ [t]
               /\ stdin (snd (add_task d w)) = answer :: rest).
  { rewrite add_task_total, blank_check, Hd. cbv zeta.
    destruct (write_fault w) as [[e dk]|];
      cbn [snd tasks stdin emit set_disk set_tasks]; auto. }
  destruct H1 as [Hts Hin1].
  rewrite (delete_task_run _ _ z (tasks w) [] t answer rest
             (py_int_shown z) Hts eq_refl Hfresh Hin1).
  cbv zeta. rewrite Hyes. change (str_eqb (lit "yes") (lit "yes")) with true.
  cbv iota. rewrite app_nil_r.
  destruct (write_fault (snd (add_task d w))) as [[e dk]|]; reflexivity.
Qed.

(** X17. The loop of [main] cannot go on for ever on a finite input:
    every round reads at least one line before it loops, so with n
    lines of input left it ends within n + 1 rounds, and allowing more
    rounds changes nothing. *)
Theorem main_ends (w : World) :
  (exists r w', main w = Some (r, w'))
  /\ main_loop (S (length (stdin w))) w <> None
  /\ (forall n, (length (stdin w) < n)%nat ->
      main_loop n w = main_loop (S (length (stdin w))) w).
Proof.
  destruct (main_loop_spec (S (length (stdin w))) w ltac:(lia))
    as (r & w' & Hrun & _).
  split; [|split].
  - destruct (main_spec w) as (r0 & w0 & Hrun0 & _). eauto.
  - rewrite (Hrun (S (length (stdin w))) ltac:(lia)). discriminate.
  - intros n Hn.
    rewrite (Hrun n Hn), (Hrun (S (length (stdin w))) ltac:(lia)). reflexivity.
Qed.

(** X18. Whatever the user types, [main] keeps the tasks well formed:
    if every task has an id of at least 1 and a description that is not
    empty and has no whitespace at either end, the same holds when
    [main] ends. *)
Theorem main_keeps_well_formed (w : World) (r : result unit) (w' : World) :
  Forall well_formed (tasks w) ->
  main w = Some (r, w') ->
  Forall well_formed (tasks w').
Proof.
  intros Hwf Hrun.
  destruct (main_spec w) as (r0 & w0 & Hrun0 & _ & _ & Hkeep & _).
  rewrite Hrun in Hrun0. injection Hrun0 as <- <-. auto.
Qed.

(** X19. On a working disk, whatever the user types, [main] keeps the
    file in step with the list: started with the file holding the list
    (or with no file and no task), it ends with the file holding the
    list, also when it ends in [EOFError]. *)
Theorem main_keeps_synced (w : World) (r : result unit) (w' : World) :
  write_fault w = None -> synced w ->
  main w = Some (r, w') ->
  synced w'.
Proof.
  intros Hok Hs Hrun.
  destruct (main_spec w) as (r0 & w0 & Hrun0 & _ & _ & _ & Hkeep).
  rewrite Hrun in Hrun0. injection Hrun0 as <- <-. auto.
Qed.

(** X20. A choice that is none of 1 to 8 once stripped: the round
    prints the twelve lines of the menu, asks for the choice, prints the
    invalid-choice line and goes round the loop again; the tasks and the
    file are as before, and only that line of input is used. *)
Theorem invalid_choice (w : World) (line : str) (rest : list str) :
  stdin w = line :: rest ->
  Forall (fun k => strip line <> lit k)
         ["1"; "2"; "3"; "4"; "5"; "6"; "7"; "8"]%string ->
  main_step w
  = (Return false,
     emit (Print msg_invalid_choice)
       (set_stdin rest
          (emit (Prompt prompt_choice) (emit_all (map Print menu_lines) w)))).
Proof.
  intros Hin Hnone.
  unfold main_step, bind at 1. rewrite display_menu_run.
  destruct (fields_emit_all (map Print menu_lines) w) as (_ & _ & Hs & _).
  unfold bind, input. rewrite Hs, Hin. unfold dispatch.
  repeat match goal with
         | |- context [str_eqb (strip line) (lit ?k)] =>
             let E := fresh "E" in
             destruct (str_eqb (strip line) (lit k)) eqn:E;
             [ apply str_eqb_eq in E; exfalso;
               rewrite List.Forall_forall in Hnone;
               apply (Hnone k); [cbn; tauto | exact E]
             | ]
         end.
  reflexivity.
Qed.

(** X21. The choice 8 ends the loop in that round: the twelve lines
    of the menu and the prompt are shown, the four goodbye lines are
    printed and the loop returns; the tasks and the file are as before,
    nothing is written on the way out. *)
Theorem exit_choice (w : World) (line : str) (rest : list str) (n : nat) :
  stdin w = line :: rest -> strip line = lit "8" ->
  main_loop (S n) w
  = Some (Return tt,
          emit_all (map Print goodbye)
            (set_stdin rest
               (emit (Prompt prompt_choice) (emit_all (map Print menu_lines) w)))).
Proof.
  intros Hin Hchoice.
  cbn [main_loop]. unfold main_step, bind at 1. rewrite display_menu_run.
  destruct (fields_emit_all (map Print menu_lines) w) as (_ & _ & Hs & _).
  unfold bind at 1, input. rewrite Hs, Hin, Hchoice. reflexivity.
Qed.

(** X22. [add_task], [mark_complete], [mark_incomplete] and
    [view_tasks] ask nothing: they leave the pending input as it is and
    show no prompt, so the end of input cannot reach them. *)
Theorem commands_ask_nothing (w : World) :
  (forall d,
      stdin (snd (add_task d w)) = stdin w
      /\ exists es, trace (snd (add_task d w)) = trace w ++ es /\ no_prompt es)
  /\ (forall value text,
      stdin (snd (setCompleted value text w)) = stdin w
      /\ exists es, trace (snd (setCompleted value text w)) = trace w ++ es
                    /\ no_prompt es)
  /\ (forall show_all,
      stdin (snd (view_tasks show_all w)) = stdin w
      /\ exists es, trace (snd (view_tasks show_all w)) = trace w ++ es
                    /\ no_prompt es).
Proof.
  split; [|split].
  - intros d. rewrite add_task_total. cbv zeta. by_cases;
      cbn [snd stdin trace emit set_disk set_tasks];
      (split; [reflexivity|]); rewrite <- ?app_assoc;
      eexists; (split; [reflexivity|]); repeat constructor.
  - intros value text. rewrite setCompleted_total. cbv zeta. by_cases;
      cbn [snd stdin trace emit set_disk set_tasks];
      (split; [reflexivity|]); rewrite <- ?app_assoc;
      eexists; (split; [reflexivity|]); repeat constructor.
  - intros show_all. destruct (view_tasks_total show_all w) as (lines & ->).
    cbn [snd].
    destruct (fields_emit_all (map Print lines) w) as (_ & _ & Hs & _ & _ & _ & Htr).
    split; [exact Hs|]. exists (map Print lines). split; [exact Htr|].
    unfold no_prompt. apply List.Forall_forall. intros e He.
    apply in_map_iff in He. destruct He as (l & <- & _). exact I.
Qed.

End MoreProperties.

(** ** The properties at work on sample stores *)

#[local] Existing Instance ascii_only.

Lemma add_task_blank_rejected_witness :
  forallb isspace [32; 9; 0xA0; 0x3000] = true
  /\ add_task [32; 9; 0xA0; 0x3000] (sample_world three_tasks [])
     = (Return false, emit (Print msg_empty_description) (sample_world three_tasks [])).
Proof.
  split; [reflexivity|]. apply add_task_blank_rejected. reflexivity.
Defined.

(** C1, as stated, fails on a full disk: the description is fine and
    the task is appended, but [add_task] returns [False]. *)
Lemma add_task_fails_on_full_disk :
  strip (lit "Buy milk") <> []
  /\ fst (add_task (lit "Buy milk") (full_disk_world [] [])) = Return false
  /\ length (tasks (snd (add_task (lit "Buy milk") (full_disk_world [] [])))) = 1%nat.
Proof. vm_compute. repeat split; discriminate. Qed.

Lemma add_task_appends_witness :
  strip (lit "  Pay rent ") <> []
  /\ exists w',
       add_task (lit "  Pay rent ") (sample_world (firstn 2 three_tasks) [])
       = (Return true, w')
       /\ tasks w' = firstn 2 three_tasks
                     ++ [ {| id := 3; description := lit "Pay rent";
                             completed := false;
                             created_at := lit "2024-05-01 09:30:00" |} ]
       /\ length (tasks w') = 3%nat.
Proof.
  assert (H : strip (lit "  Pay rent ") <> []) by (vm_compute; discriminate).
  split; [exact H|].
  exact (add_task_appends (sample_world (firstn 2 three_tasks) []) (lit "  Pay rent ") H).
Defined.

(** C2. The code gives a new task the id of a live one: from three
    tasks with ids 1, 2, 3, deleting task 1 and adding a task leaves
    ids 2, 3, 3. *)
Lemma add_after_delete_reuses_live_id :
  let w := sample_world three_tasks [lit "yes"] in
  let w1 := snd (delete_task (lit "1") w) in
  let w2 := snd (add_task (lit "Call bank") w1) in
  fst (delete_task (lit "1") w) = Return true
  /\ fst (add_task (lit "Call bank") w1) = Return true
  /\ map id (tasks w2) = [2; 3; 3]%Z.
Proof. vm_compute. repeat split. Qed.

Lemma view_tasks_pending_witness :
  tasks_to_show false three_tasks = skipn 1 three_tasks
  /\ (3 - 1 = 2)%Z
  /\ fst (view_tasks false (sample_world three_tasks [])) = Return tt.
Proof.
  destruct (view_tasks_pending (sample_world three_tasks []))
    as (_ & _ & _ & Hcount & Hrun).
  split; [reflexivity|]. split; [exact Hcount|].
  rewrite Hrun. reflexivity.
Defined.

(** C4, as stated, fails on a surrogate pair: the save succeeds, and
    the load returns a task whose description is the one code point
    U+10000, not the two that were saved. *)
Lemma load_joins_surrogate_pair :
  let w := sample_world [surrogate_task] [] in
  fst (save_tasks w) = Return true
  /\ fst (load_tasks (snd (save_tasks w)))
     = Return (tasks_value [ {| id := 1; description := [0x10000];
                                completed := false;
                                created_at := lit "2024-05-01 09:30:00" |} ])
  /\ fst (load_tasks (snd (save_tasks w))) <> Return (tasks_value (tasks w)).
Proof. vm_compute. repeat split. discriminate. Qed.

Lemma save_then_load_witness :
  let w := sample_world (unicode_task :: three_tasks) [] in
  forallb task_ok (tasks w) = true
  /\ fst (save_tasks w) = Return true
  /\ fst (load_tasks (snd (save_tasks w))) = Return (tasks_value (tasks w)).
Proof.
  intros w.
  assert (H1 : forallb task_ok (tasks w) = true) by (vm_compute; reflexivity).
  assert (H2 : fst (save_tasks w) = Return true) by (vm_compute; reflexivity).
  split; [exact H1|]. split; [exact H2|].
  exact (save_then_load w H1 H2).
Defined.

(** C9, as stated, fails on a missing file: [load_tasks] returns the
    empty list and prints nothing, no warning and no other line. *)
Lemma load_tasks_silent_on_missing_file :
  let w := file_world NoFile in
  load_tasks w = (Return (VList []), w)
  /\ trace (snd (load_tasks w)) = []
  /\ ~ In (Print (msg_corrupted (filename w))) (trace (snd (load_tasks w))).
Proof.
  intros w. split; [reflexivity|]. split; [reflexivity|].
  intros H. exact H.
Qed.

(** A file cut short gives the empty list and the warning; a file whose
    reading raises another exception (here an integer longer than the
    interpreter converts) gives the empty list and the error line; a
    file holding JSON that is no list of tasks is returned as it is. *)
Lemma load_tasks_on_sample_files :
  let cut := file_world (FileText (lit "[1, 2")) in
  let long := file_world (Unreadable too_many_digits) in
  let other := file_world (FileText (lit "{}")) in
  load_tasks cut
  = (Return (VList []), emit (Print (msg_corrupted (lit "tasks.json"))) cut)
  /\ load_tasks long
     = (Return (VList []), emit (Print (msg_load_error too_many_digits)) long)
  /\ load_tasks other = (Return (VDict []), other).
Proof. vm_compute. repeat split. Qed.

(** C5, as stated, fails on the text 0: it does not parse as a
    positive integer, yet the error is the does-not-exist one, not the
    not-a-number one. *)
Lemma delete_zero_reports_not_found :
  py_int (lit "0") = Some 0%Z
  /\ delete_task (lit "0") (sample_world three_tasks [])
     = (Return false, emit (Print (msg_not_found 0)) (sample_world three_tasks []))
  /\ msg_not_found 0 <> msg_id_not_number.
Proof. vm_compute. repeat split. discriminate. Qed.

Lemma delete_task_outcomes_witness :
  let w := sample_world three_tasks [lit "No"] in
  let w' := sample_world three_tasks [lit "YES"] in
  delete_task (lit "abc") w = (Return false, emit (Print msg_id_not_number) w)
  /\ delete_task (lit "-7") w = (Return false, emit (Print (msg_not_found (-7))) w)
  /\ delete_task (lit " 2 ") w
     = (Return false,
        emit (Print msg_deletion_cancelled)
             (set_stdin [] (emit (Prompt (prompt_delete (lit "Walk dog"))) w)))
  /\ tasks (snd (delete_task (lit " 2 ") w'))
     = [sample_task 1 "Buy milk" true; sample_task 3 "Pay rent" false].
Proof.
  intros w w'.
  destruct (delete_task_outcomes w (lit "abc")) as (Ha & _).
  destruct (delete_task_outcomes w (lit "-7")) as (_ & Hb & _).
  destruct (delete_task_outcomes w (lit " 2 ")) as (_ & _ & Hc & _).
  destruct (delete_task_outcomes w' (lit " 2 ")) as (_ & _ & _ & Hd).
  assert (Hfirst : Forall (fun t' => id t' <> 2%Z) [sample_task 1 "Buy milk" true]).
  { repeat constructor. discriminate. }
  split; [apply Ha; reflexivity|].
  split.
  { apply Hb; [reflexivity|]. repeat constructor; discriminate. }
  split.
  - refine (proj1 (Hc 2%Z [sample_task 1 "Buy milk" true]
                      (sample_task 2 "Walk dog" false)
                      [sample_task 3 "Pay rent" false] (lit "No") []
                      eq_refl eq_refl eq_refl Hfirst eq_refl _)).
    vm_compute. discriminate.
  - exact (Hd 2%Z [sample_task 1 "Buy milk" true]
              (sample_task 2 "Walk dog" false)
              [sample_task 3 "Pay rent" false] (lit "YES") []
              eq_refl eq_refl eq_refl Hfirst eq_refl eq_refl).
Defined.

Lemma setCompleted_guard_witness :
  let w := sample_world three_tasks [] in
  setCompleted true (lit "1") w
  = (Return false, emit (Print (msg_already true 1)) w)
  /\ exists w' out,
       setCompleted false (lit "1") w = (Return true, w')
       /\ tasks w' = sample_task 1 "Buy milk" false :: skipn 1 three_tasks
       /\ trace w' = trace w ++ Save (json_dump (tasks w')) :: out
       /\ disk w' = FileText (json_dump (tasks w')).
Proof.
  intros w.
  destruct (setCompleted_guard true w (lit "1") 1%Z []
              (skipn 1 three_tasks) (sample_task 1 "Buy milk" true)
              eq_refl eq_refl eq_refl (List.Forall_nil _)) as (Hsame & _).
  destruct (setCompleted_guard false w (lit "1") 1%Z []
              (skipn 1 three_tasks) (sample_task 1 "Buy milk" true)
              eq_refl eq_refl eq_refl (List.Forall_nil _)) as (_ & Hdiff).
  split; [exact (proj1 (Hsame eq_refl))|].
  destruct (Hdiff ltac:(discriminate)) as (w' & out & Hrun & Hts & _ & Htrace & Hdisk).
  exists w', out. repeat split; try assumption. apply Hdisk. reflexivity.
Defined.

Lemma setCompleted_frame_witness :
  let w := sample_world three_tasks [] in
  exists t',
    tasks (snd (setCompleted true (lit "2") w))
    = [sample_task 1 "Buy milk" true] ++ t' :: [sample_task 3 "Pay rent" false]
    /\ id t' = 2%Z /\ description t' = lit "Walk dog"
    /\ created_at t' = lit "2024-05-01 09:30:00" /\ completed t' = true.
Proof.
  intros w.
  assert (Hfirst : Forall (fun t' => id t' <> 2%Z) [sample_task 1 "Buy milk" true]).
  { repeat constructor. discriminate. }
  destruct (setCompleted_frame true w (lit "2") 2%Z
              [sample_task 1 "Buy milk" true] [sample_task 3 "Pay rent" false]
              (sample_task 2 "Walk dog" false) eq_refl eq_refl eq_refl Hfirst eq_refl)
    as (t' & Hnew & Hid & Hdesc & Hcreated & Hflag & _).
  exists t'. repeat split; assumption.
Defined.

(** C7, as stated, fails on a full disk: the completed task is removed
    from the list and the answer was yes, but [clear_completed] returns
    [False] and prints no cleared count. *)
Lemma clear_completed_silent_on_full_disk :
  let w := full_disk_world three_tasks [lit "yes"] in
  fst (clear_completed w) = Return false
  /\ tasks (snd (clear_completed w)) = skipn 1 three_tasks
  /\ forall n, ~ In (Print (msg_cleared n)) (trace (snd (clear_completed w))).
Proof.
  intros w. split; [reflexivity|]. split; [reflexivity|].
  intros n Hin.
  assert (Htrace : trace (snd (clear_completed w))
                   = [ Prompt (prompt_clear 1);
                       Save (json_dump (skipn 1 three_tasks));
                       Print (msg_save_error disk_full) ]) by reflexivity.
  rewrite Htrace in Hin. cbn [In] in Hin.
  destruct Hin as [H|[H|[H|[]]]]; discriminate H.
Qed.

Lemma clear_completed_outcomes_witness :
  let w0 := sample_world (skipn 1 three_tasks) [lit "yes"] in
  let w := sample_world three_tasks [lit "Yes"] in
  clear_completed w0 = (Return false, emit (Print msg_nothing_to_clear) w0)
  /\ exists w',
       clear_completed w = (Return true, w')
       /\ length (tasks w) = (length (tasks w') + 1)%nat
       /\ Forall (fun t => completed t = false) (tasks w')
       /\ trace w' = [ Prompt (prompt_clear 1);
                       Save (json_dump (tasks w'));
                       Print (msg_cleared 1) ].
Proof.
  intros w0 w.
  destruct (clear_completed_outcomes w0) as (Hnone & _).
  destruct (clear_completed_outcomes w) as (_ & Hsome).
  split; [apply Hnone; reflexivity|].
  destruct (Hsome (lit "Yes") [] ltac:(discriminate) eq_refl eq_refl)
    as (w' & Hrun & _ & Hpending & _ & Hlen & Hsaved & _).
  exists w'. repeat split; try assumption. apply Hsaved. reflexivity.
Defined.

(** ** More properties at work on sample stores *)

Lemma three_tasks_well_formed : Forall well_formed three_tasks.
Proof.
  repeat constructor; try discriminate; cbn; lia.
Qed.

Lemma add_task_stores_trimmed_witness :
  forallb isspace (lit "  Call mum ") = false
  /\ exists t,
       tasks (snd (add_task (lit "  Call mum ") (sample_world three_tasks [])))
       = tasks (sample_world three_tasks []) ++ [t]
       /\ description t = strip (lit "  Call mum ")
       /\ well_formed t.
Proof.
  split; [reflexivity|].
  exact (add_task_stores_trimmed (sample_world three_tasks []) (lit "  Call mum ")
           eq_refl).
Defined.

Lemma printed_id_reads_back_witness :
  (length (str_of_int 42) <= 4300)%nat
  /\ forallb int_space [32] = true /\ forallb int_space [32; 10] = true
  /\ py_int ([32] ++ str_of_int 42 ++ [32; 10]) = Some 42%Z
  /\ parse_id ([32] ++ str_of_int 42 ++ [32; 10]) (sample_world three_tasks [])
     = (Return (Some 42%Z), sample_world three_tasks []).
Proof.
  assert (H : (length (str_of_int 42) <= 4300)%nat) by (cbn; lia).
  split; [exact H|]. split; [reflexivity|]. split; [reflexivity|].
  destruct (printed_id_reads_back 42%Z [32] [32; 10] H eq_refl eq_refl)
    as [Hint Hparse].
  split; [exact Hint | apply Hparse].
Defined.

Lemma confirmation_ascii_witness :
  forallb is_ascii (lit "YeS") = true
  /\ (str_eqb (lower (lit "YeS")) (lit "yes") = true
      <-> exists y e s,
            lit "YeS" = [y; e; s]
            /\ (y = 121 \/ y = 89) /\ (e = 101 \/ e = 69) /\ (s = 115 \/ s = 83)).
Proof.
  split; [reflexivity|].
  exact (confirmation_ascii (lit "YeS") eq_refl).
Defined.

Lemma setCompleted_rejects_witness :
  let w := sample_world three_tasks [] in
  mark_complete (lit "two") w = (Return false, emit (Print msg_id_not_number) w)
  /\ mark_incomplete (lit "9") w = (Return false, emit (Print (msg_not_found 9)) w).
Proof.
  intros w. split.
  - exact (proj1 (setCompleted_rejects true w (lit "two")) eq_refl).
  - refine (proj2 (setCompleted_rejects false w (lit "9")) 9%Z eq_refl _).
    repeat constructor; discriminate.
Defined.

Lemma setCompleted_undo_witness :
  let w := sample_world three_tasks [] in
  tasks (snd (mark_incomplete (lit "2") (snd (mark_complete (lit "2") w))))
  = tasks w.
Proof.
  intros w.
  refine (setCompleted_undo true w (lit "2") 2%Z
            [sample_task 1 "Buy milk" true] [sample_task 3 "Pay rent" false]
            (sample_task 2 "Walk dog" false) eq_refl eq_refl eq_refl _ eq_refl).
  repeat constructor; discriminate.
Defined.

Lemma setCompleted_twice_witness :
  let w := sample_world three_tasks [] in
  let w1 := snd (mark_complete (lit "2") w) in
  mark_complete (lit "2") w1
  = (Return false, emit (Print (msg_already true 2)) w1).
Proof.
  intros w.
  refine (setCompleted_twice true w (lit "2") 2%Z
            [sample_task 1 "Buy milk" true] [sample_task 3 "Pay rent" false]
            (sample_task 2 "Walk dog" false) eq_refl eq_refl eq_refl _).
  repeat constructor; discriminate.
Defined.

Lemma prompt_at_end_of_input_witness :
  let w := sample_world three_tasks [] in
  (exists e,
     delete_task (lit "1") w
     = (Raise e, emit (Prompt (prompt_delete (lit "Buy milk"))) w)
     /\ class_of e = EOFError)
  /\ (exists e,
        clear_completed w = (Raise e, emit (Prompt (prompt_clear 1)) w)
        /\ class_of e = EOFError).
Proof.
  intros w. destruct (prompt_at_end_of_input w eq_refl) as [Hdel Hclear].
  split.
  - exact (Hdel (lit "1") 1%Z [] (sample_task 1 "Buy milk" true)
             (skipn 1 three_tasks) eq_refl eq_refl eq_refl (List.Forall_nil _)).
  - apply Hclear. discriminate.
Defined.

Lemma clear_completed_declined_witness :
  let w := sample_world three_tasks [lit "y"] in
  clear_completed w
  = (Return false,
     emit (Print msg_operation_cancelled)
          (set_stdin [] (emit (Prompt (prompt_clear 1)) w))).
Proof.
  intros w.
  refine (clear_completed_declined w (lit "y") [] _ eq_refl _).
  - discriminate.
  - vm_compute. discriminate.
Defined.

Lemma clear_completed_twice_witness :
  let w := sample_world three_tasks [lit "yes"] in
  let w1 := snd (clear_completed w) in
  List.filter completed (tasks w1) = []
  /\ clear_completed w1 = (Return false, emit (Print msg_nothing_to_clear) w1).
Proof.
  intros w.
  refine (clear_completed_twice w (lit "yes") [] _ eq_refl eq_refl).
  discriminate.
Defined.

Lemma view_tasks_all_witness :
  let w := sample_world three_tasks [] in
  fst (view_tasks true w) = Return tt
  /\ length (flat_map task_lines (tasks w)) = 9%nat.
Proof.
  intros w.
  destruct (view_tasks_all w ltac:(discriminate)) as [Hrun Hlen].
  split; [rewrite Hrun; reflexivity | exact Hlen].
Defined.

Lemma true_means_saved_witness :
  let w := sample_world three_tasks [] in
  fst (add_task (lit "Call mum") w) = Return true
  /\ disk (snd (add_task (lit "Call mum") w))
     = FileText (json_dump (tasks (snd (add_task (lit "Call mum") w)))).
Proof.
  intros w.
  assert (H : fst (add_task (lit "Call mum") w) = Return true)
    by (vm_compute; reflexivity).
  split; [exact H|].
  exact (proj1 (true_means_saved w) (lit "Call mum") H).
Defined.

Lemma false_means_untouched_witness :
  let w := sample_world three_tasks [lit "no"] in
  fst (delete_task (lit "3") w) = Return false
  /\ tasks (snd (delete_task (lit "3") w)) = tasks w
  /\ disk (snd (delete_task (lit "3") w)) = disk w.
Proof.
  intros w.
  assert (H : fst (delete_task (lit "3") w) = Return false)
    by (vm_compute; reflexivity).
  split; [exact H|].
  exact (proj1 (proj2 (false_means_untouched w eq_refl)) (lit "3") H).
Defined.

Lemma save_tasks_writes_ascii_witness :
  let w := sample_world [unicode_task] [] in
  exists w' content,
    save_tasks w = (Return true, w')
    /\ disk w' = FileText content /\ forallb is_ascii content = true.
Proof.
  intros w.
  destruct (save_tasks_writes_ascii w) as (w' & Hrun & _ & Hdisk).
  destruct (Hdisk eq_refl) as (content & Hd & Hascii).
  exists w', content. repeat split; assumption.
Defined.

Lemma json_dump_injective_witness :
  forallb task_ok three_tasks = true
  /\ (json_dump three_tasks = json_dump (firstn 3 three_tasks)
      -> three_tasks = firstn 3 three_tasks).
Proof.
  split; [reflexivity|].
  exact (json_dump_injective three_tasks (firstn 3 three_tasks) eq_refl eq_refl).
Defined.

Lemma add_then_delete_witness :
  let w := sample_world three_tasks [lit "Yes"] in
  tasks (snd (delete_task (str_of_int 4) (snd (add_task (lit "Call mum") w))))
  = tasks w.
Proof.
  intros w.
  refine (add_then_delete w (lit "Call mum") (lit "Yes") [] eq_refl _ eq_refl eq_refl).
  repeat constructor; discriminate.
Defined.

Lemma main_ends_witness :
  let w := sample_world three_tasks [lit "2"; lit " 8 "] in
  (exists r w', main w = Some (r, w'))
  /\ main_loop 7 w = main_loop 3 w.
Proof.
  intros w. destruct (main_ends w) as (Hends & _ & Hfuel).
  split; [exact Hends|]. apply (Hfuel 7%nat). cbn. lia.
Defined.

Lemma main_keeps_well_formed_witness :
  let w := sample_world three_tasks
             [lit "1"; lit "  Call mum  "; lit "6"; lit "1"; lit "yes"; lit "8"] in
  exists r w', main w = Some (r, w') /\ Forall well_formed (tasks w').
Proof.
  intros w. destruct (main w) as [[r w']|] eqn:E.
  - exists r, w'. split; [reflexivity|].
    exact (main_keeps_well_formed w r w' three_tasks_well_formed E).
  - vm_compute in E. discriminate E.
Defined.

Lemma main_keeps_synced_witness :
  let w := sample_world []
             [lit "1"; lit "Call mum"; lit "4"; lit "1"; lit "7"] in
  exists r w', main w = Some (r, w') /\ synced w'.
Proof.
  intros w. destruct (main w) as [[r w']|] eqn:E.
  - exists r, w'. split; [reflexivity|].
    refine (main_keeps_synced w r w' eq_refl _ E). right. split; reflexivity.
  - vm_compute in E. discriminate E.
Defined.

Lemma invalid_choice_witness :
  let w := sample_world three_tasks [lit "9"; lit "8"] in
  main_step w
  = (Return false,
     emit (Print msg_invalid_choice)
       (set_stdin [lit "8"]
          (emit (Prompt prompt_choice) (emit_all (map Print menu_lines) w)))).
Proof.
  intros w. refine (invalid_choice w (lit "9") [lit "8"] eq_refl _).
  repeat constructor; vm_compute; discriminate.
Defined.

Lemma exit_choice_witness :
  let w := sample_world three_tasks [lit " 8"; lit "1"] in
  main_loop 1 w
  = Some (Return tt,
          emit_all (map Print goodbye)
            (set_stdin [lit "1"]
               (emit (Prompt prompt_choice) (emit_all (map Print menu_lines) w)))).
Proof.
  intros w. exact (exit_choice w (lit " 8") [lit "1"] 0%nat eq_refl eq_refl).
Defined.
